(** * aiquizgen: the JSON coercer and the fallback policy of [server.py]

    A shallow embedding of the pure core of [server.py]:
    [clean_and_parse_json], the quiz filter and the two fallbacks of
    [process_files], the context truncation and [extract_text_from_file].

    Python [str] values are sequences of Unicode code points; they are
    modelled as lists of [N].  Exceptions are modelled by the [exc] monad. *)

From Stdlib Require Import List NArith ZArith Bool Lia String Ascii.
From Stdlib Require Strings.Byte.
Import ListNotations.

Set Implicit Arguments.
Set Warnings "-register-all".

(* ------------------------------------------------------------------ *)
(** ** Python strings *)

Definition char := N.
Definition str := list char.

(** A literal of the source, as a sequence of code points (ASCII only). *)
Definition py (s : string) : str :=
  List.map N_of_ascii (list_ascii_of_string s).

Definition str_eqb (a b : str) : bool :=
  if list_eq_dec N.eq_dec a b then true else false.



(** [len(s)], for strings and lists *)
Definition len {A} (s : list A) : Z := Z.of_nat (List.length s).

(** [str.isspace] on one code point: the characters [str.strip] removes
    and the regular expression class [\s] matches on a [str] pattern. *)
Definition isspace (c : char) : bool :=
  ((9 <=? c) && (c <=? 13) || (28 <=? c) && (c <=? 32)
   || (c =? 133) || (c =? 160) || (c =? 5760)
   || (8192 <=? c) && (c <=? 8202)
   || (c =? 8232) || (c =? 8233) || (c =? 8239) || (c =? 8287)
   || (c =? 12288))%N.

Fixpoint lstrip (s : str) : str :=
  match s with
  | c :: r => if isspace c then lstrip r else s
  | [] => []
  end.

Definition rstrip (s : str) : str := rev (lstrip (rev s)).

(** [s.strip()] *)
Definition strip (s : str) : str := rstrip (lstrip s).

(** [s.startswith(p)] *)
Fixpoint startswith (s p : str) {struct p} : bool :=
  match p, s with
  | [], _ => true
  | a :: p', b :: s' => (a =? b)%N && startswith s' p'
  | _ :: _, [] => false
  end.

(** [s.endswith(p)] *)
Definition endswith (s p : str) : bool := startswith (rev s) (rev p).

(** [s[a:b]] for [0 <= a], [0 <= b] *)
Definition slice (s : str) (a b : Z) : str :=
  firstn (Z.to_nat (b - a)) (skipn (Z.to_nat a) s).

(** [s.find(c)] for a one-character [c]: the first index, or [-1]. *)
Fixpoint find (s : str) (c : char) : Z :=
  match s with
  | [] => -1
  | x :: r => if (x =? c)%N then 0
              else let i := find r c in if (i <? 0)%Z then -1 else (i + 1)%Z
  end.

(** [s.rfind(c)] for a one-character [c]: the last index, or [-1]. *)
Fixpoint rfind (s : str) (c : char) : Z :=
  match s with
  | [] => -1
  | x :: r => let i := rfind r c in
              if (0 <=? i)%Z then (i + 1)%Z
              else if (x =? c)%N then 0 else -1
  end.

(** [s.replace(a, b)] for one-character [a] and [b]. *)
Definition replace (a b : char) (s : str) : str :=
  List.map (fun c => if (c =? a)%N then b else c) s.

(** [s.split(sep)] for a non-empty separator: the pieces between the
    non-overlapping occurrences of [sep], found from the left. *)
Fixpoint split_aux (sep : str) (skip : nat) (cur : str) (s : str)
  : list str :=
  match s with
  | [] => [rev cur]
  | c :: r =>
      match skip with
      | S k => split_aux sep k cur r
      | O => if startswith s sep
             then rev cur :: split_aux sep (List.length sep - 1) [] r
             else split_aux sep 0 (c :: cur) r
      end
  end.

Definition split (s sep : str) : list str := split_aux sep 0 [] s.

(* ------------------------------------------------------------------ *)
(** ** Exceptions *)

(** The messages of [json.JSONDecodeError] (CPython 3.12, the first
    version that accepts the f-strings of [server.py]).  The position
    that follows the message in [str(e)] is not modelled: no message is
    part of another. *)
Inductive decode_error :=
| ExpectingValue
| ExpectingCommaDelimiter
| ExpectingColonDelimiter
| ExpectingPropertyName
| ExtraData
| UnterminatedString
| InvalidControlCharacter
| InvalidEscape
| InvalidUnicodeEscape
| UnexpectedBOM.

(** [ValueError]: the integer conversion of a literal longer than
    [sys.get_int_max_str_digits()].  [RecursionError]: containers nested
    deeper than the interpreter allows.  [FuelExhausted] belongs to the model
    only: the parser below recurses on a fuel argument, and
    [json_loads_terminates] shows that it is never raised.  [OtherError]
    carries the message of an exception of a library outside the model. *)
Inductive exn :=
| JSONDecodeError (e : decode_error)
| ValueError
| RecursionError
| OtherError (msg : str)
| FuelExhausted.

Inductive exc (A : Type) :=
| Return (a : A)
| Raise (e : exn).
Arguments Return {A} a.
Arguments Raise {A} e.

Definition bind {A B} (m : exc A) (f : A -> exc B) : exc B :=
  match m with
  | Return a => f a
  | Raise e => Raise e
  end.

(* ------------------------------------------------------------------ *)
(** ** JSON values, as [json.loads] builds them *)

(** A [float] is kept as the literal it was read from; [dict] keeps its
    keys in insertion order, without duplicates. *)
Inductive json :=
| JNull
| JBool (b : bool)
| JInt (n : Z)
| JFloat (lexeme : str)
| JStr (s : str)
| JArr (l : list json)
| JObj (d : list (str * json)).

Definition dict := list (str * json).

(** [d[k] = v] *)
Fixpoint dict_set (d : dict) (k : str) (v : json) : dict :=
  match d with
  | [] => [(k, v)]
  | (k', v') :: r =>
      if str_eqb k' k then (k', v) :: r else (k', v') :: dict_set r k v
  end.

(** [d.get(k)] *)
Fixpoint dict_get (d : dict) (k : str) : option json :=
  match d with
  | [] => None
  | (k', v') :: r => if str_eqb k' k then Some v' else dict_get r k
  end.

(** [k in d] *)
Definition dict_mem (d : dict) (k : str) : bool :=
  match dict_get d k with Some _ => true | None => false end.

Definition isinstance_list (v : json) : bool :=
  match v with JArr _ => true | _ => false end.

Definition isinstance_dict (v : json) : bool :=
  match v with JObj _ => true | _ => false end.

Definition isinstance_str (v : json) : bool :=
  match v with JStr _ => true | _ => false end.

(* ------------------------------------------------------------------ *)
(** ** [json.loads]

    The decoder of the standard library, followed function by function
    ([scanstring], the number matcher, [scan_once], the object and array
    loops, [decode]).  The scanner works on the rest of the input instead
    of an index into it. *)

(** A parse step: a value and the input after it, or an exception. *)
Inductive pres (A : Type) :=
| POk (a : A) (rest : str)
| PRaise (e : exn).
Arguments POk {A} a rest.
Arguments PRaise {A} e.

Definition perr {A} (e : decode_error) : pres A :=
  PRaise (JSONDecodeError e).

(** The JSON whitespace [ \t\n\r]. *)
Definition is_ws (c : char) : bool :=
  ((c =? 32) || (c =? 9) || (c =? 10) || (c =? 13))%N.

Fixpoint skip_ws (s : str) : str :=
  match s with
  | c :: r => if is_ws c then skip_ws r else s
  | [] => []
  end.

Definition is_digit (c : char) : bool := ((48 <=? c) && (c <=? 57))%N.

Definition hexdigit (c : char) : option N :=
  if is_digit c then Some (c - 48)%N
  else if ((97 <=? c) && (c <=? 102))%N then Some (c - 87)%N
  else if ((65 <=? c) && (c <=? 70))%N then Some (c - 55)%N
  else None.

(** [_decode_uXXXX] on the four characters after [\u]. *)
Definition hex4 (a b c d : char) : option N :=
  match hexdigit a, hexdigit b, hexdigit c, hexdigit d with
  | Some x, Some y, Some z, Some w =>
      Some (((x * 16 + y) * 16 + z) * 16 + w)%N
  | _, _, _, _ => None
  end.

Definition is_high_surrogate (u : N) : bool :=
  ((55296 <=? u) && (u <=? 56319))%N.

Definition is_low_surrogate (u : N) : bool :=
  ((56320 <=? u) && (u <=? 57343))%N.

Definition join_surrogates (u u2 : N) : N :=
  (65536 + ((u - 55296) * 1024 + (u2 - 56320)))%N.

(** The table [BACKSLASH] of the one-character escapes. *)
Definition backslash (e : char) : option char :=
  if (e =? 34)%N then Some 34%N
  else if (e =? 92)%N then Some 92%N
  else if (e =? 47)%N then Some 47%N
  else if (e =? 98)%N then Some 8%N
  else if (e =? 102)%N then Some 12%N
  else if (e =? 110)%N then Some 10%N
  else if (e =? 114)%N then Some 13%N
  else if (e =? 116)%N then Some 9%N
  else None.

(** [scanstring], strict mode, from the character after the opening
    quote; [acc] holds the decoded characters, last first.  The four
    digits of a [\u] escape must not reach the end of the input, and a
    high surrogate is joined with a following [\u] escape only when that
    one does not reach the end either. *)
Fixpoint scanstring (s : str) (acc : str) : pres str :=
  match s with
  | [] => perr UnterminatedString
  | c :: r =>
      if (c =? 34)%N then POk (rev acc) r
      else if (c =? 92)%N then
        match r with
        | [] => perr UnterminatedString
        | e :: r1 =>
            if (e =? 117)%N then
              match r1 with
              | a :: b :: c' :: d :: ((_ :: _) as r2) =>
                  match hex4 a b c' d with
                  | None => perr InvalidUnicodeEscape
                  | Some uni =>
                      match r2 with
                      | x :: y :: a2 :: b2 :: c2 :: d2 :: ((_ :: _) as r4) =>
                          if is_high_surrogate uni && (x =? 92)%N
                             && (y =? 117)%N
                          then
                            match hex4 a2 b2 c2 d2 with
                            | None => perr InvalidUnicodeEscape
                            | Some uni2 =>
                                if is_low_surrogate uni2
                                then scanstring r4
                                       (join_surrogates uni uni2 :: acc)
                                else scanstring r2 (uni :: acc)
                            end
                          else scanstring r2 (uni :: acc)
                      | _ => scanstring r2 (uni :: acc)
                      end
                  end
              | _ => perr InvalidUnicodeEscape
              end
            else
              match backslash e with
              | Some ch => scanstring r1 (ch :: acc)
              | None => perr InvalidEscape
              end
        end
      else if (c <? 32)%N then perr InvalidControlCharacter
      else scanstring r (c :: acc)
  end.

(** *** Numbers: an optional minus sign, [0] or a digit sequence without
    leading zero, an optional fraction, an optional exponent *)

Fixpoint span_digits (s : str) : str * str :=
  match s with
  | c :: r =>
      if is_digit c
      then let (d, t) := span_digits r in (c :: d, t)
      else ([], s)
  | [] => ([], [])
  end.

Definition match_int_part (s : str) : option (str * str) :=
  match s with
  | c :: r =>
      if (c =? 48)%N then Some ([c], r)
      else if is_digit c
           then let (d, t) := span_digits r in Some (c :: d, t)
           else None
  | [] => None
  end.

Definition match_frac (s : str) : str * str :=
  match s with
  | dot :: c :: r =>
      if (dot =? 46)%N && is_digit c
      then let (d, t) := span_digits r in (dot :: c :: d, t)
      else ([], s)
  | _ => ([], s)
  end.

Definition match_sign (s : str) : str * str :=
  match s with
  | c :: r => if ((c =? 43) || (c =? 45))%N then ([c], r) else ([], s)
  | [] => ([], s)
  end.

Definition match_exp (s : str) : str * str :=
  match s with
  | e :: r =>
      if ((e =? 101) || (e =? 69))%N
      then let (sg, r1) := match_sign r in
           let (d, t) := span_digits r1 in
           match d with
           | [] => ([], s)
           | _ :: _ => (e :: sg ++ d, t)
           end
      else ([], s)
  | [] => ([], s)
  end.

(** [int(digits)] for a sequence of ASCII digits. *)
Definition digits_val (d : str) : Z :=
  fold_left (fun a c => (a * 10 + (Z.of_N c - 48))%Z) d 0%Z.

(** [sys.int_info.default_max_str_digits] *)
Definition INT_MAX_STR_DIGITS : Z := 4300.

(** The number matcher of the scanner.  No match is [StopIteration],
    which [raw_decode] turns into "Expecting value". *)
Definition match_number (s : str) : pres json :=
  let (sg, s1) :=
    match s with
    | c :: r => if (c =? 45)%N then ([c], r) else ([], s)
    | [] => ([], s)
    end in
  match match_int_part s1 with
  | None => perr ExpectingValue
  | Some (ds, s2) =>
      let (fr, s3) := match_frac s2 in
      let (ex, s4) := match_exp s3 in
      match fr, ex with
      | [], [] =>
          if (INT_MAX_STR_DIGITS <? len ds)%Z
          then PRaise ValueError
          else POk (JInt (match sg with
                          | [] => digits_val ds
                          | _ :: _ => - digits_val ds
                          end)%Z) s4
      | _, _ => POk (JFloat (sg ++ ds ++ fr ++ ex)) s4
      end
  end.

(** [s[idx:idx+len(lit)] == lit], giving the input after the literal. *)
Definition literal (lit : string) (s : str) : option str :=
  if startswith s (py lit)
  then Some (skipn (List.length (py lit)) s)
  else None.

(** *** [scan_once], the object loop and the array loop *)

Definition OPEN_BRACE : char := 123%N.
Definition CLOSE_BRACE : char := 125%N.
Definition OPEN_BRACKET : char := 91%N.
Definition CLOSE_BRACKET : char := 93%N.
Definition QUOTE : char := 34%N.
Definition COMMA : char := 44%N.
Definition COLON : char := 58%N.

Definition scan_constants (s : str) : pres json :=
  match literal "null" s with
  | Some r => POk JNull r
  | None =>
  match literal "true" s with
  | Some r => POk (JBool true) r
  | None =>
  match literal "false" s with
  | Some r => POk (JBool false) r
  | None =>
  match literal "NaN" s with
  | Some r => POk (JFloat (py "NaN")) r
  | None =>
  match literal "Infinity" s with
  | Some r => POk (JFloat (py "Infinity")) r
  | None =>
  match literal "-Infinity" s with
  | Some r => POk (JFloat (py "-Infinity")) r
  | None => match_number s
  end end end end end end.

(** [scan_once] of the C scanner.  [remaining] is the number of nested
    calls the interpreter still allows: the scanner enters one
    ([Py_EnterRecursiveCall]) for every object and every array it opens,
    before it reads anything of it, and raises [RecursionError] when none
    is left. *)
Fixpoint scan_once (fuel : nat) (remaining : nat) (s : str) {struct fuel}
  : pres json :=
  match fuel with
  | O => PRaise FuelExhausted
  | S f =>
      match s with
      | [] => perr ExpectingValue
      | c :: r =>
          if (c =? QUOTE)%N then
            match scanstring r [] with
            | POk v r' => POk (JStr v) r'
            | PRaise e => PRaise e
            end
          else if (c =? OPEN_BRACE)%N then
            match remaining with
            | O => PRaise RecursionError
            | S inner =>
                match skip_ws r with
                | c' :: r' =>
                    if (c' =? CLOSE_BRACE)%N then POk (JObj []) r'
                    else object_loop f inner (c' :: r') []
                | [] => object_loop f inner [] []
                end
            end
          else if (c =? OPEN_BRACKET)%N then
            match remaining with
            | O => PRaise RecursionError
            | S inner =>
                match skip_ws r with
                | c' :: r' =>
                    if (c' =? CLOSE_BRACKET)%N then POk (JArr []) r'
                    else array_loop f inner (c' :: r') []
                | [] => array_loop f inner [] []
                end
            end
          else scan_constants s
      end
  end

(** One member of an object, from its key on; [d] holds the members
    read so far. *)
with object_loop (fuel : nat) (remaining : nat) (s : str) (d : dict)
    {struct fuel} : pres json :=
  match fuel with
  | O => PRaise FuelExhausted
  | S f =>
      match s with
      | c :: r =>
          if (c =? QUOTE)%N then
            match scanstring r [] with
            | PRaise e => PRaise e
            | POk key r1 =>
                match skip_ws r1 with
                | c1 :: r2 =>
                    if (c1 =? COLON)%N then
                      match scan_once f remaining (skip_ws r2) with
                      | PRaise e => PRaise e
                      | POk v r3 =>
                          match skip_ws r3 with
                          | c3 :: r4 =>
                              if (c3 =? CLOSE_BRACE)%N
                              then POk (JObj (dict_set d key v)) r4
                              else if (c3 =? COMMA)%N
                              then object_loop f remaining (skip_ws r4)
                                     (dict_set d key v)
                              else perr ExpectingCommaDelimiter
                          | [] => perr ExpectingCommaDelimiter
                          end
                      end
                    else perr ExpectingColonDelimiter
                | [] => perr ExpectingColonDelimiter
                end
            end
          else perr ExpectingPropertyName
      | [] => perr ExpectingPropertyName
      end
  end

(** One element of an array; [acc] holds the elements read so far, last
    first. *)
with array_loop (fuel : nat) (remaining : nat) (s : str) (acc : list json)
    {struct fuel} : pres json :=
  match fuel with
  | O => PRaise FuelExhausted
  | S f =>
      match scan_once f remaining s with
      | PRaise e => PRaise e
      | POk v r =>
          match skip_ws r with
          | c :: r' =>
              if (c =? CLOSE_BRACKET)%N then POk (JArr (rev (v :: acc))) r'
              else if (c =? COMMA)%N
              then array_loop f remaining (skip_ws r') (v :: acc)
              else perr ExpectingCommaDelimiter
          | [] => perr ExpectingCommaDelimiter
          end
      end
  end.

Section Decoder.

(** What is left of the interpreter's recursion limit when [json.loads]
    is called: the number of containers, one inside the other, that the
    decoder can open.  It depends on the interpreter and on the stack of
    the request, not on the program. *)
Variable recursion_limit : nat.

(** [json.loads(s)]: the byte-order-mark check, then [decode]: one value
    between optional whitespace, and nothing after it. *)
Definition json_loads (s : str) : exc json :=
  if startswith s [65279%N] then Raise (JSONDecodeError UnexpectedBOM)
  else
    match scan_once (2 * List.length s + 2) recursion_limit (skip_ws s) with
    | PRaise e => Raise e
    | POk v r =>
        match skip_ws r with
        | [] => Return v
        | _ :: _ => Raise (JSONDecodeError ExtraData)
        end
    end.

(* ------------------------------------------------------------------ *)
(** ** [clean_and_parse_json] *)

Definition BACKTICK : char := 96%N.
Definition FENCE : str := [BACKTICK; BACKTICK; BACKTICK].

Definition is_ascii_letter (c : char) : bool :=
  ((97 <=? c) && (c <=? 122) || (65 <=? c) && (c <=? 90))%N.

Fixpoint drop_letters (s : str) : str :=
  match s with
  | c :: r => if is_ascii_letter c then drop_letters r else s
  | [] => []
  end.

(** [text[m.end():]] for the match [m] of the fence, its language tag
    and the whitespace after it, at the start of a text that begins with
    the fence (both repetitions are greedy and the match never fails). *)
Definition strip_open_fence (text : str) : str :=
  lstrip (drop_letters (skipn 3 text)).

(** Step 1: the markdown fences. *)
Definition strip_fences (text : str) : str :=
  let text := if startswith text FENCE then strip_open_fence text
              else text in
  let text := if endswith text FENCE then slice text 0 (len text - 3)
              else text in
  strip text.

(** Step 3: typographic quotes, non-breaking spaces, control characters. *)
Definition is_control (c : char) : bool := ((c <=? 31) || (c =? 127))%N.

Definition clean_content (s : str) : str :=
  let s := replace 8217%N 39%N (replace 8216%N 39%N
             (replace 8221%N 34%N (replace 8220%N 34%N s))) in
  let s := replace 160%N 32%N (replace 160%N 32%N s) in
  filter (fun c => negb (is_control c)) s.

Definition is_closer (c : char) : bool :=
  ((c =? CLOSE_BRACE) || (c =? CLOSE_BRACKET))%N.

(** Does [s] start with whitespace followed by a closing bracket? *)
Definition closer_follows (s : str) : bool :=
  match lstrip s with
  | c :: _ => is_closer c
  | [] => false
  end.

(** The substitution of the repair pass: every comma that is followed by
    optional whitespace and a closing bracket is removed together with
    that whitespace, the matches being taken from the left.  [dropping]
    holds while the whitespace of a match is being skipped. *)
Fixpoint remove_trailing_commas (dropping : bool) (s : str) : str :=
  match s with
  | [] => []
  | c :: r =>
      if dropping && isspace c then remove_trailing_commas true r
      else if (c =? COMMA)%N && closer_follows r
           then remove_trailing_commas true r
           else c :: remove_trailing_commas false r
  end.

(** ["Expecting ',' delimiter" in str(e) or "Extra data" in str(e)] *)
Definition repairable (e : decode_error) : bool :=
  match e with
  | ExpectingCommaDelimiter | ExtraData => true
  | _ => false
  end.

(** [try: ... except json.JSONDecodeError: handler]: the handler runs on
    a decode error, every other exception goes on to the caller. *)
Definition try_decode {A} (m : exc A) (handler : decode_error -> exc A)
  : exc A :=
  match m with
  | Raise (JSONDecodeError e) => handler e
  | other => other
  end.

Definition clean_and_parse_json (text : str) (is_list : bool)
  : exc (option json) :=
  match text with
  | [] => Return None
  | _ :: _ =>
      let text := strip text in
      let text := strip_fences text in
      let start_char := if is_list then OPEN_BRACKET else OPEN_BRACE in
      let end_char := if is_list then CLOSE_BRACKET else CLOSE_BRACE in
      let start_index := find text start_char in
      let end_index := rfind text end_char in
      if ((start_index =? -1) || (end_index =? -1)
          || (end_index <? start_index))%Z
      then Return None
      else
        let json_content := slice text start_index (end_index + 1) in
        let json_content := clean_content json_content in
        try_decode
          (bind (json_loads json_content) (fun v => Return (Some v)))
          (fun e =>
             if repairable e then
               let fixed_content :=
                 remove_trailing_commas false json_content in
               try_decode
                 (bind (json_loads fixed_content)
                    (fun v => Return (Some v)))
                 (fun _ => Return None)
             else Return None)
  end.

(* ------------------------------------------------------------------ *)
(** ** Truth values of decoded JSON *)

Definition exp_val (ex : str) : Z :=
  match ex with
  | [] => 0
  | _ :: r =>
      let (sg, d) := match_sign r in
      match sg with
      | [45%N] => - digits_val d
      | _ => digits_val d
      end
  end.

(** Is the [float] read from this literal [0.0]?  The literal denotes
    [m * 10^e]; the conversion rounds to nearest, ties to even, so it
    gives zero exactly when [m * 10^e <= 2^-1075].  [NaN] and the
    infinities are not zero. *)
Definition float_is_zero (lexeme : str) : bool :=
  let s1 := match lexeme with
            | c :: r => if (c =? 45)%N then r else lexeme
            | [] => lexeme
            end in
  match match_int_part s1 with
  | None => false
  | Some (ds, s2) =>
      let (fr, s3) := match_frac s2 in
      let (ex, _) := match_exp s3 in
      let m := digits_val (ds ++ tl fr) in
      let e := (exp_val ex - len (tl fr))%Z in
      ((m =? 0) || ((e <? 0) && (m * 2 ^ 1075 <=? 10 ^ (- e))))%Z
  end.

(** [bool(v)] *)
Definition truthy (v : json) : bool :=
  match v with
  | JNull => false
  | JBool b => b
  | JInt n => negb (n =? 0)%Z
  | JFloat l => negb (float_is_zero l)
  | JStr s => match s with [] => false | _ :: _ => true end
  | JArr l => match l with [] => false | _ :: _ => true end
  | JObj d => match d with [] => false | _ :: _ => true end
  end.

(** [bool(d.get(k))]: a missing key gives [None], which is false. *)
Definition truthy_get (d : dict) (k : string) : bool :=
  match dict_get d (py k) with
  | Some v => truthy v
  | None => false
  end.

(** [bool(text)] for the result of [call_openai_api]: [None] and the
    empty string are false. *)
Definition nonempty_text (t : option str) : option str :=
  match t with
  | Some ((_ :: _) as s) => Some s
  | _ => None
  end.

(* ------------------------------------------------------------------ *)
(** ** [process_files]: context, explanation, quiz *)

Definition MAX_API_CONTEXT_SIZE : Z := 8000.

Definition TRUNCATION_MARKER : str :=
  [10; 10]%N ++ py "[...Content truncated for API processing efficiency]".

(** Lines 280-281: the context sent to the completion API. *)
Definition truncate_context (combined_text : str) : str :=
  if (MAX_API_CONTEXT_SIZE <? len combined_text)%Z
  then slice combined_text 0 MAX_API_CONTEXT_SIZE ++ TRUNCATION_MARKER
  else combined_text.

Definition FAILED_TOPIC : str :=
  py "Study Material Analysis (Failed to Parse JSON)".

Definition PLACEHOLDER : str :=
  py "Unable to generate explanation or parse response.".

(** Lines 333-337: the content of the fallback explanation. *)
Definition fallback_content (explanation_text : option str) : list str :=
  match nonempty_text explanation_text with
  | Some t => firstn 5 (split t [10; 10]%N)
  | None => [PLACEHOLDER]
  end.

Definition fallback_explanation (explanation_text : option str) : json :=
  JObj [(py "topic", JStr FAILED_TOPIC);
        (py "content", JArr (List.map JStr (fallback_content explanation_text)))].

(** Lines 327-330: [explanation_data] before the fallback. *)
Definition parse_explanation (explanation_text : option str)
  : exc (option json) :=
  match nonempty_text explanation_text with
  | Some t => clean_and_parse_json t false
  | None => Return None
  end.

(** Lines 326-340: [explanation_for_storage] from the completion. *)
Definition explanation_for_storage (explanation_text : option str)
  : exc json :=
  bind (parse_explanation explanation_text)
    (fun parsed =>
       let explanation_data :=
         match parsed with
         | Some v => v
         | None => fallback_explanation explanation_text
         end in
       Return (if isinstance_dict explanation_data
               then JArr [explanation_data]
               else explanation_data)).

(** Lines 384-390: a value that is not a list is unwrapped from the key
    [quiz] or [questions], or wrapped as a one-element list. *)
Definition unwrap_quiz (temp_quiz_data : json) : list json :=
  match temp_quiz_data with
  | JArr l => l
  | JObj d =>
      match dict_get d (py "quiz") with
      | Some (JArr l) => l
      | _ =>
          match dict_get d (py "questions") with
          | Some (JArr l) => l
          | _ => [temp_quiz_data]
          end
      end
  | _ => [temp_quiz_data]
  end.

(** Lines 395-400: the validity filter. *)
Definition valid_question (q : json) : bool :=
  match q with
  | JObj d =>
      truthy_get d "question" && truthy_get d "options"
      && truthy_get d "correctAnswer"
      && match dict_get d (py "options") with
         | Some (JArr l) => (4 <=? len l)%Z
         | _ => false
         end
  | _ => false
  end.

(** Lines 379-404: [quiz_data] before the fallback. *)
Definition parse_quiz (quiz_text : option str) : exc (option (list json)) :=
  match nonempty_text quiz_text with
  | None => Return None
  | Some t =>
      bind (clean_and_parse_json t true)
        (fun temp_quiz_data =>
           match temp_quiz_data with
           | Some v =>
               if truthy v
               then Return (Some (filter valid_question (unwrap_quiz v)))
               else Return None
           | None => Return None
           end)
  end.

Definition FALLBACK_QUESTION : json :=
  JObj [(py "question",
         JStr (py "Quiz generation failed (Error: Not enough valid questions generated)."));
        (py "options",
         JArr [JStr (py "A) Please check the content.");
               JStr (py "B) Try re-uploading the file.");
               JStr (py "C) The material might be too short or complex.");
               JStr (py "D) All of the above.")]);
        (py "correctAnswer", JStr (py "D"))].

(** [str(n)] for [0 <= n], most significant digit first. *)
Fixpoint digits_of_pos (fuel : nat) (n : N) (acc : str) : str :=
  match fuel with
  | O => acc
  | S f =>
      let acc := (48 + n mod 10)%N :: acc in
      if (n <? 10)%N then acc else digits_of_pos f (n / 10)%N acc
  end.

Definition str_of_N (n : N) : str :=
  digits_of_pos (S (N.to_nat (N.log2 n))) n [].

Definition str_of_Z (n : Z) : str :=
  if (n <? 0)%Z then 45%N :: str_of_N (Z.to_N (- n)) else str_of_N (Z.to_N n).

Definition failed_status (parsed : Z) : str :=
  py "Failed to generate enough valid questions (parsed only "
  ++ str_of_Z parsed ++ py "). Explanation generated successfully.".

(** Lines 375-415: the quiz and its status message. *)
Definition final_quiz (quiz_text : option str) : exc (list json * str) :=
  bind (parse_quiz quiz_text)
    (fun quiz_data =>
       match quiz_data with
       | Some l =>
           if (len l <? 5)%Z
           then Return ([FALLBACK_QUESTION], failed_status (len l))
           else Return (l, py "Success")
       | None => Return ([FALLBACK_QUESTION], failed_status 0)
       end).

(** The body of the successful response. *)
Record response := {
  success : bool;
  explanation : json;
  quiz : list json;
  files_processed : list str;
  quiz_status : str;
  extraction_errors : list str
}.

Inductive http :=
| Http200 (body : response)
| Http400 (error : str)
| Http500 (error : str).

Definition INTERNAL_ERROR : str :=
  py "An internal server error occurred during processing. Please check server logs.".

(** Lines 326-435, after the two completions have been received: the
    response, with the handler of the outermost [try]. *)
Definition respond (processed_files errors : list str)
    (explanation_text quiz_text : option str) : http :=
  match
    bind (explanation_for_storage explanation_text) (fun e =>
    bind (final_quiz quiz_text) (fun '(q, status) =>
    Return {| success := true; explanation := e; quiz := q;
              files_processed := processed_files;
              quiz_status := status; extraction_errors := errors |}))
  with
  | Return r => Http200 r
  | Raise _ => Http500 INTERNAL_ERROR
  end.

(* ------------------------------------------------------------------ *)
(** ** [allowed_file] and [extract_text_from_file] *)

Definition bytes := list Byte.byte.

(** An uploaded file: its name, and what [file.seek(0); file.read()]
    gives, the bytes of the file or the exception of the stream. *)
Record upload := { filename : str; read : exc bytes }.

Definition DOT : char := 46%N.

(** [str(e)].  The extractor only sees exceptions of the libraries it
    calls; for the others the name of the class stands for the message. *)
Definition exn_message (e : exn) : str :=
  match e with
  | OtherError msg => msg
  | JSONDecodeError _ => py "JSONDecodeError"
  | ValueError => py "ValueError"
  | RecursionError => py "RecursionError"
  | FuelExhausted => []
  end.

Definition MAX_TEXT_SIZE_BYTES : Z := 5 * 1024 * 1024.
Definition MAX_PDF_PAGES : Z := 1000.

Definition EXTRACTION_MARKER : str :=
  10%N :: py "[Content truncated due to size limit during extraction]".

Section Extraction.

(** The libraries the extractor calls: [str.lower], the UTF-8 decoder
    with [errors="ignore"], and PyPDF2, which either fails to open the
    document or gives its pages, each of which yields its text or
    fails.  [PDF_SUPPORT] tells whether PyPDF2 could be imported. *)
Variable lower : str -> str.
Variable decode_utf8_ignore : bytes -> exc str.
Variable PdfReader : bytes -> exc (list (exc str)).
Variable PDF_SUPPORT : bool.

(** [name.rsplit(".", 1)[1]]: the text after the last dot; without a
    dot the index is out of range. *)
Definition rsplit_ext (name : str) : exc str :=
  let i := rfind name DOT in
  if (i <? 0)%Z then Raise (OtherError (py "list index out of range"))
  else Return (skipn (Z.to_nat (i + 1)) name).

Definition is_supported (ext : str) : bool :=
  str_eqb ext (py "pdf") || str_eqb ext (py "txt").

Definition allowed_file (name : str) : bool :=
  (0 <=? find name DOT)%Z
  && match rsplit_ext name with
     | Return ext => is_supported (lower ext)
     | Raise _ => false
     end.

(** Lines 91-103: the page loop; a page that fails is skipped. *)
Fixpoint extract_pages (pages : list (exc str)) (text : str) : str :=
  match pages with
  | [] => text
  | page :: rest =>
      match page with
      | Raise _ => extract_pages rest text
      | Return page_text =>
          let text := match page_text with
                      | [] => text
                      | _ :: _ => text ++ page_text ++ [10%N]
                      end in
          if (MAX_API_CONTEXT_SIZE * 2 <? len text)%Z
          then slice text 0 (MAX_API_CONTEXT_SIZE * 2) ++ EXTRACTION_MARKER
          else extract_pages rest text
      end
  end.

Definition pages_note (total_pages pages_to_process : Z) : str :=
  10%N :: py "[Note: PDF has " ++ str_of_Z total_pages
  ++ py " pages, processed first " ++ str_of_Z pages_to_process
  ++ py " pages]".

Definition txt_failed (name : str) (e : exn) : str :=
  py "[TXT parsing failed for " ++ name ++ py ". Error: "
  ++ exn_message e ++ py "]".

Definition pdf_failed (name : str) (e : exn) : str :=
  py "[PDF parsing failed for " ++ name
  ++ py ". The file may be corrupt or non-standard. Error: "
  ++ exn_message e ++ py "]".

Definition no_text_layer (name : str) : str :=
  py "[Text extraction from " ++ name
  ++ py " failed. File may be a scanned image without a text layer.]".

Definition NO_PDF_LIBRARY : str :=
  py "[PDF file uploaded but PyPDF2 library not installed for text extraction.]".

Definition unsupported_type (ext : str) : str :=
  py "[File type ." ++ ext ++ py " is not supported.]".

(** [try: body except Exception as e: return handler(e)] *)
Definition try_except (body : exc str) (handler : exn -> str) : exc str :=
  match body with
  | Return s => Return s
  | Raise e => Return (handler e)
  end.

Definition extract_text_from_file (file : upload) : exc str :=
  bind (rsplit_ext (filename file)) (fun ext =>
  let extension := lower ext in
  bind (read file) (fun file_bytes =>
  if str_eqb extension (py "txt") then
    try_except
      (let file_bytes :=
         if (MAX_TEXT_SIZE_BYTES <? len file_bytes)%Z
         then firstn (Z.to_nat MAX_TEXT_SIZE_BYTES) file_bytes
         else file_bytes in
       decode_utf8_ignore file_bytes)
      (txt_failed (filename file))
  else if str_eqb extension (py "pdf") && PDF_SUPPORT then
    try_except
      (bind (PdfReader file_bytes) (fun pages =>
       let total_pages := len pages in
       let pages_to_process := Z.min total_pages MAX_PDF_PAGES in
       let text :=
         extract_pages (firstn (Z.to_nat pages_to_process) pages) [] in
       let text :=
         if (pages_to_process <? total_pages)%Z
         then text ++ pages_note total_pages pages_to_process
         else text in
       match strip text with
       | _ :: _ => Return text
       | [] => Return (no_text_layer (filename file))
       end))
      (pdf_failed (filename file))
  else if str_eqb extension (py "pdf") && negb PDF_SUPPORT then
    Return NO_PDF_LIBRARY
  else Return (unsupported_type extension))).

End Extraction.

(* ------------------------------------------------------------------ *)
(** ** Notions of the specification *)

(** The number of questions that survive coercion and filtering: the
    [len(quiz_data) if quiz_data else 0] of line 408. *)
Definition surviving_questions (quiz_text : option str) : Z :=
  match parse_quiz quiz_text with
  | Return (Some l) => len l
  | _ => 0
  end.

(** The QuizQuestion shape in the words of the specification: an object
    whose [options] are exactly 4 strings and whose [correctAnswer] is one
    of A, B, C, D. *)
Definition spec_quiz_question (q : json) : bool :=
  match q with
  | JObj d =>
      match dict_get d (py "options"), dict_get d (py "correctAnswer") with
      | Some (JArr l), Some (JStr a) =>
          (len l =? 4)%Z && forallb isinstance_str l
          && (str_eqb a (py "A") || str_eqb a (py "B")
              || str_eqb a (py "C") || str_eqb a (py "D"))
      | _, _ => false
      end
  | _ => false
  end.

(** The ExplanationResult shape in the words of the specification: an
    object with a string [topic] and a [content] of exactly 5 strings. *)
Definition spec_explanation_result (e : json) : bool :=
  match e with
  | JObj d =>
      match dict_get d (py "topic"), dict_get d (py "content") with
      | Some (JStr _), Some (JArr l) =>
          (len l =? 5)%Z && forallb isinstance_str l
      | _, _ => false
      end
  | _ => false
  end.

(** A completion written with single quotes for the double quotes of
    JSON, to keep the examples readable. *)
Definition dq (s : string) : str := replace 39%N 34%N (py s).

(* ------------------------------------------------------------------ *)
(** ** Serialization *)





(** [sep.join(l)] *)
Fixpoint join (sep : str) (l : list str) : str :=
  match l with
  | [] => []
  | x :: r =>
      match r with
      | [] => x
      | _ :: _ => x ++ sep ++ join sep r
      end
  end.









(* ------------------------------------------------------------------ *)
(** ** [call_openai_api] and the whole of [process_files] *)

(** Lines 181-224.  [client] is the module-level client, [None] when its
    initialization failed; applied to a prompt it stands for the request
    [client.chat.completions.create] followed by the access to the
    content of the first choice, which may raise or be [None]. *)
Definition call_openai_api (client : option (str -> exc (option str)))
    (prompt : str) : option str :=
  match client with
  | None => None
  | Some create =>
      match strip prompt with
      | [] => None
      | _ :: _ =>
          match create prompt with
          | Return output_text => output_text
          | Raise _ => None
          end
      end
  end.

(** The two prompts (lines 284-324 and 343-373), each in the two parts
    around the study material, with single quotes standing for the double
    quotes of the source. *)
Definition EXPLANATION_PROMPT_HEAD : str :=
  dq "You are an educational AI assistant. Follow ALL instructions exactly as written.

You will analyze the following study material and produce a structured explanation.  
You MUST follow the formatting rules exactly.  
You MUST NOT add any extra text, comments, disclaimers, apologies, introductions, conclusions, or explanations outside of the required JSON.  
You MUST NOT use markdown formatting.  
You MUST NOT wrap the JSON in backticks or code blocks.  
You MUST ONLY return valid JSON as the final output.

Study Material:
".

Definition EXPLANATION_PROMPT_TAIL : str :=
  dq "

Your task:

1. Create a clear, concise topic/title for the material.
2. Create **exactly 5 paragraphs** of explanation in simple, educational language.  
    Each paragraph must summarize a different key idea, concept, or section from the study material.
3. Return the output **only** in this JSON structure:

{
  'topic': 'Topic Title Here',
  'content': [
    'First paragraph of explanation...',
    'Second paragraph of explanation...',
    'Third paragraph of explanation...',
    'Fourth paragraph of explanation...',
    'Fifth paragraph of explanation...'
  ]
}

Formatting Rules (MANDATORY):
- The JSON MUST be valid and properly formatted.
- The 'topic' field MUST be a single string.
- The 'content' field MUST be an array containing EXACTLY 5 strings.
- Do NOT include more or fewer paragraphs.
- Do NOT include extra fields.
- Do NOT include trailing commas.
- Do NOT include any text before or after the JSON object.

If you understand, output ONLY the JSON object following all rules above.
".

Definition QUIZ_PROMPT_HEAD : str :=
  dq "Based on this study material, create 10 multiple-choice questions that thoroughly test understanding of all the important concepts.

Study Material:
".

Definition QUIZ_PROMPT_TAIL : str :=
  dq "

Create questions with:
- Clear, concise questions
- Exactly 4 answer options labeled A, B, C, D for each question
- One correct answer per question

Format your response as a JSON array of question objects, ensuring you generate exactly 10 questions:
[
  {
    'question': 'Question text here?',
    'options': [
      'A) First option',
      'B) Second option',
      'C) Third option',
      'D) Fourth option'
    ],
    'correctAnswer': 'B'
  },
  {
    'question': 'Another question?',
    'options': ['A) Option A', 'B) Option B', 'C) Option C', 'D) Option D'],
    'correctAnswer': 'A'
  }
  // ... continue for 10 total questions
]

Only return the JSON array, no additional text or characters. DO NOT include the JSON in markdown backticks (```json).".

Definition explanation_prompt (combined_text : str) : str :=
  EXPLANATION_PROMPT_HEAD ++ combined_text ++ EXPLANATION_PROMPT_TAIL.

Definition quiz_prompt (combined_text : str) : str :=
  QUIZ_PROMPT_HEAD ++ combined_text ++ QUIZ_PROMPT_TAIL.

(** The three accumulators of the file loop. *)
Record collected := {
  combined : str;
  processed : list str;
  errors : list str
}.

Definition add_error (st : collected) (msg : str) : collected :=
  {| combined := combined st; processed := processed st;
     errors := errors st ++ [msg] |}.

Definition NO_FILES_PROVIDED : str := py "No files provided".
Definition NO_FILES_SELECTED : str := py "No files selected".
Definition NO_USABLE_TEXT : str :=
  py "Could not extract usable text from files.".

Section Handler.

(** The libraries of the extractor, and [secure_filename] of werkzeug. *)
Variable lower : str -> str.
Variable decode_utf8_ignore : bytes -> exc str.
Variable PdfReader : bytes -> exc (list (exc str)).
Variable PDF_SUPPORT : bool.
Variable secure_filename : str -> str.
Variable client : option (str -> exc (option str)).

(** [bool(file)]: an upload is true when it has a file name. *)
Definition has_name (file : upload) : bool :=
  match filename file with
  | [] => false
  | _ :: _ => true
  end.

(** Lines 254-272: one turn of the file loop. *)
Definition process_file (st : collected) (file : upload) : collected :=
  if has_name file && allowed_file lower (filename file) then
    let name := secure_filename (filename file) in
    match extract_text_from_file lower decode_utf8_ignore PdfReader
            PDF_SUPPORT file with
    | Return text =>
        match text with
        | [] =>
            add_error st
              (name ++ py ": Could not extract text (returned empty content).")
        | _ :: _ =>
            if startswith text [OPEN_BRACKET]
            then add_error st (name ++ py ": " ++ text)
            else {| combined :=
                      combined st ++ [10; 10]%N ++ py "--- Content from "
                      ++ name ++ py " ---" ++ [10; 10]%N ++ text;
                    processed := processed st ++ [name];
                    errors := errors st |}
        end
    | Raise e =>
        add_error st (name ++ py ": Processing error: " ++ exn_message e)
    end
  else if has_name file
       then add_error st
              (filename file
               ++ py ": File type not supported. Only PDF and TXT are supported.")
       else st.

(** Lines 249-272: the file loop. *)
Definition collect_files (files : list upload) : collected :=
  fold_left process_file files
    {| combined := []; processed := []; errors := [] |}.

(** Lines 275-278: the message of the 400 answer. *)
Definition no_text_error (errs : list str) : str :=
  match errs with
  | [] => NO_USABLE_TEXT
  | _ :: _ =>
      NO_USABLE_TEXT ++ py " Detailed errors: " ++ join (py " | ") errs
  end.

(** Lines 240-435.  [files] is [None] when the request has no field
    [files], else the list [request.files.getlist] returns. *)
Definition process_files (files : option (list upload)) : http :=
  match files with
  | None => Http400 NO_FILES_PROVIDED
  | Some [] => Http400 NO_FILES_SELECTED
  | Some ((first :: _) as files) =>
      if has_name first then
        let st := collect_files files in
        match strip (combined st) with
        | [] => Http400 (no_text_error (errors st))
        | _ :: _ =>
            let combined_text := truncate_context (combined st) in
            let explanation_text :=
              call_openai_api client (explanation_prompt combined_text) in
            let quiz_text :=
              call_openai_api client (quiz_prompt combined_text) in
            respond (processed st) (errors st) explanation_text quiz_text
        end
      else Http400 NO_FILES_SELECTED
  end.

End Handler.

(* ------------------------------------------------------------------ *)
(** ** Notions used in the statements and proofs *)

(** A quiz completion of five questions that pass the filter although
    each has five numeric options and the answer [Z]. *)
Definition five_questions : str :=
  dq "[{'question':'q','options':[1,2,3,4,5],'correctAnswer':'Z'},
       {'question':'q','options':[1,2,3,4,5],'correctAnswer':'Z'},
       {'question':'q','options':[1,2,3,4,5],'correctAnswer':'Z'},
       {'question':'q','options':[1,2,3,4,5],'correctAnswer':'Z'},
       {'question':'q','options':[1,2,3,4,5],'correctAnswer':'Z'}]".

(** One of these questions, decoded. *)
Definition loose_question : json :=
  JObj [(py "question", JStr (py "q"));
        (py "options", JArr [JInt 1; JInt 2; JInt 3; JInt 4; JInt 5]);
        (py "correctAnswer", JStr (py "Z"))].

(** The response to that quiz completion when the explanation completion
    failed. *)
Definition five_response : response :=
  {| success := true;
     explanation := JArr [fallback_explanation None];
     quiz := repeat loose_question 5;
     files_processed := [];
     quiz_status := py "Success";
     extraction_errors := [] |}.





(** A recursion limit for the examples: the default of
    [sys.getrecursionlimit()]. *)
Definition SAMPLE_LIMIT : nat := Z.to_nat 1000.




(** A small text file. *)
Definition notes_txt : upload :=
  {| filename := py "notes.txt"; read := Return [Byte.x68; Byte.x69] |}.

(** The opening bracket the coercer looks for (line 143). *)
Definition start_char (is_list : bool) : char :=
  if is_list then OPEN_BRACKET else OPEN_BRACE.

(** The Python type that goes with the expected bracket. *)
Definition has_shape (is_list : bool) (v : json) : bool :=
  if is_list then isinstance_list v else isinstance_dict v.

(** Steps 1 to 3 of the coercer: the isolated and cleaned JSON text, or
    [None] when the function returns early. *)
Definition json_content (text : str) (is_list : bool) : option str :=
  match text with
  | [] => None
  | _ :: _ =>
      let text := strip_fences (strip text) in
      let start_index := find text (start_char is_list) in
      let end_index :=
        rfind text (if is_list then CLOSE_BRACKET else CLOSE_BRACE) in
      if ((start_index =? -1) || (end_index =? -1)
          || (end_index <? start_index))%Z
      then None
      else Some (clean_content (slice text start_index (end_index + 1)))
  end.

(** Step 4 and the repair pass. *)
Definition decode_with_repair (content : str) : exc (option json) :=
  try_decode
    (bind (json_loads content) (fun v => Return (Some v)))
    (fun e =>
       if repairable e then
         try_decode
           (bind (json_loads (remove_trailing_commas false content))
              (fun v => Return (Some v)))
           (fun _ => Return None)
       else Return None).

(** The early failures of the coercer in the words of the specification:
    the text is empty, the opening bracket is missing, the closing bracket
    is missing, or the closing position precedes the opening position. *)
Definition fails_early (text : str) (is_list : bool) : bool :=
  match text with
  | [] => true
  | _ :: _ =>
      let t := strip_fences (strip text) in
      let start_index := find t (start_char is_list) in
      let end_index :=
        rfind t (if is_list then CLOSE_BRACKET else CLOSE_BRACE) in
      ((start_index =? -1) || (end_index =? -1)
       || (end_index <? start_index))%Z
  end.

(** An array that holds one integer literal of 4301 digits. *)
Definition long_integer : str :=
  OPEN_BRACKET :: repeat 49%N (Z.to_nat 4301) ++ [CLOSE_BRACKET].

(** The exceptions the decoder raises are its own. *)
Definition decoder_exn (e : exn) : Prop :=
  match e with
  | OtherError _ => False
  | _ => True
  end.


(** The closing bracket the coercer looks for (line 144). *)
Definition end_char (is_list : bool) : char :=
  if is_list then CLOSE_BRACKET else CLOSE_BRACE.


(** What may follow a number without being read as part of it. *)
Definition delimited (rest : str) : bool :=
  match rest with
  | [] => true
  | c :: _ => negb (is_digit c || (c =? 46) || (c =? 101) || (c =? 69))%N
  end.


(** A text at which a digit sequence ends. *)
Definition no_digit_head (s : str) : Prop :=
  match s with
  | c :: _ => is_digit c = false
  | [] => True
  end.








(** The text a page adds to the extraction: its text and a line feed, or
    nothing when the page fails or has no text. *)
Definition page_line (page : exc str) : str :=
  match page with
  | Return ((_ :: _) as page_text) => page_text ++ [10%N]
  | _ => []
  end.

(** The text of all pages, before any truncation. *)
Definition all_text (pages : list (exc str)) : str :=
  flat_map page_line pages.

Section HandlerNotions.

Variable lower : str -> str.
Variable decode_utf8_ignore : bytes -> exc str.
Variable PdfReader : bytes -> exc (list (exc str)).
Variable PDF_SUPPORT : bool.
Variable secure_filename : str -> str.

(** The text the extractor returns for a file, empty when it raises. *)
Definition text_of (file : upload) : str :=
  match extract_text_from_file lower decode_utf8_ignore PdfReader
          PDF_SUPPORT file with
  | Return text => text
  | Raise _ => []
  end.

(** The files the loop takes text from: named, of an allowed type, and
    with an extracted text that is neither empty nor a diagnostic. *)
Definition gives_text (file : upload) : bool :=
  has_name file && allowed_file lower (filename file)
  && match text_of file with
     | [] => false
     | (_ :: _) as text => negb (startswith text [OPEN_BRACKET])
     end.

(** What the loop appends to the combined text for such a file. *)
Definition content_entry (file : upload) : str :=
  [10; 10]%N ++ py "--- Content from " ++ secure_filename (filename file)
  ++ py " ---" ++ [10; 10]%N ++ text_of file.

End HandlerNotions.

(** Stand-ins for the libraries, for the examples: a decoder that reads
    every file as the same sentence, a PDF reader without pages, names
    that are already secure and lower-case. *)
Definition sample_decode (_ : bytes) : exc str := Return (py "Cells divide.").

Definition sample_reader (_ : bytes) : exc (list (exc str)) := Return [].

Definition same_name (s : str) : str := s.

(** A request with a text file, a file without name and an image. *)
Definition sample_uploads : list upload :=
  [notes_txt;
   {| filename := []; read := Return [] |};
   {| filename := py "photo.png"; read := Return [] |}].

(** The response to it when no completion is available. *)
Definition degraded_response (names errs : list str) : response :=
  {| success := true;
     explanation := JArr [fallback_explanation None];
     quiz := [FALLBACK_QUESTION];
     files_processed := names;
     quiz_status := failed_status 0;
     extraction_errors := errs |}.

(** The error reported for the image of the sample request. *)
Definition photo_error : str :=
  py "photo.png: File type not supported. Only PDF and TXT are supported.".

(** [c not in s] *)
Definition lacks (c : char) (s : str) : bool :=
  forallb (fun x => negb (x =? c)%N) s.

(** A text in which the part [o :: m ++ [cl]] reaches from the first [o]
    to the last [cl]. *)
Definition framed (o cl : char) (m t : str) : Prop :=
  exists p q, t = p ++ o :: m ++ cl :: q
              /\ lacks o p = true /\ lacks cl q = true.

(** A completion with prose, a fence, typographic quotes, non-breaking
    spaces and line feeds around and inside the object that [pair_object]
    is. *)
Definition chatty_prefix : str :=
  py "Sure, here it is:" ++ [10%N] ++ FENCE ++ py "json" ++ [10%N].

Definition chatty_suffix : str := [10%N] ++ FENCE ++ [10%N] ++ py "Bye".

Definition chatty_middle : str :=
  [10; 8220; 97; 8221; 58; 160; 91; 49; 44; 160; 49; 93; 10]%N.


(** The characters the repair pass never deletes: all but commas and
    whitespace. *)
Definition kept_by_repair (c : char) : bool :=
  negb ((c =? COMMA)%N || isspace c).

(** A file with the given name and no content. *)
Definition named (name : str) : upload :=
  {| filename := name; read := Return [] |}.

(** [str.lower] on ASCII letters, for the examples. *)
Definition ascii_lower (s : str) : str :=
  List.map (fun c => if ((65 <=? c) && (c <=? 90))%N then (c + 32)%N else c) s.

(** The separator of the fallback blocks: a blank line. *)
Definition BLANK_LINE : str := [10; 10]%N.

(* ------------------------------------------------------------------ *)
(** * Properties *)

(** ** Lists and strings *)

Lemma len_nonneg {A} (l : list A) : (0 <= len l)%Z.
Proof. unfold len. lia. Qed.

Lemma len_app {A} (a b : list A) : len (a ++ b) = (len a + len b)%Z.
Proof. unfold len. rewrite length_app. lia. Qed.

Lemma len_slice_prefix (s : str) (n : Z) :
  (0 <= n)%Z -> (n <= len s)%Z -> len (slice s 0 n) = n.
Proof.
  intros Hn Hs. unfold slice, len in *. simpl.
  rewrite length_firstn, Z.sub_0_r. lia.
Qed.

Lemma split_aux_nonempty (sep : str) (s : str) :
  forall skip cur, (1 <= List.length (split_aux sep skip cur s))%nat.
Proof.
  induction s as [|c r IH]; intros skip cur; cbn [split_aux].
  - simpl. lia.
  - destruct skip as [|k].
    + destruct (startswith (c :: r) sep); [|apply IH].
      cbn [List.length]. lia.
    + apply IH.
Qed.

(** ** The context sent to the API (C5) *)

(** C5, as stated, fails: a context of 8001 characters is sent as 8054
    characters, the first 8000 and the truncation marker. *)
Lemma truncate_context_exceeds_maximum :
  (MAX_API_CONTEXT_SIZE < len (truncate_context (repeat 97%N (Z.to_nat 8001))))%Z.
Proof. vm_compute. reflexivity. Qed.

(** C5, amended: after the truncation step the context is at most the
    maximum context size plus the 54 characters of the truncation marker
    long; a longer text is cut to its first [MAX_API_CONTEXT_SIZE]
    characters before the marker is appended. *)
Theorem truncate_context_bound (combined_text : str) :
  (len (truncate_context combined_text)
   <= MAX_API_CONTEXT_SIZE + len TRUNCATION_MARKER)%Z
  /\ len TRUNCATION_MARKER = 54%Z
  /\ truncate_context combined_text
     = if (MAX_API_CONTEXT_SIZE <? len combined_text)%Z
       then firstn (Z.to_nat MAX_API_CONTEXT_SIZE) combined_text
            ++ TRUNCATION_MARKER
       else combined_text.
Proof.
  split; [|split; [reflexivity|]].
  - unfold truncate_context.
    destruct (MAX_API_CONTEXT_SIZE <? len combined_text)%Z eqn:E.
    + apply Z.ltb_lt in E.
      rewrite len_app, len_slice_prefix;
        unfold MAX_API_CONTEXT_SIZE in *; lia.
    + apply Z.ltb_ge in E. pose proof (len_nonneg TRUNCATION_MARKER). lia.
  - unfold truncate_context, slice.
    destruct (MAX_API_CONTEXT_SIZE <? len combined_text)%Z; reflexivity.
Qed.

(** ** The explanation fallback (C4) *)

(** C4, amended: whenever the coercer returns [None] for the explanation
    completion, the response carries the fallback explanation, whose
    content is the first 5 blocks of the raw completion text split on
    blank lines and has at least 1 and at most 5 entries; when no
    completion text exists it is the single placeholder string. *)
Theorem explanation_fallback_content (explanation_text : option str) :
  parse_explanation explanation_text = Return None ->
  explanation_for_storage explanation_text
  = Return (JArr [fallback_explanation explanation_text])
  /\ fallback_content explanation_text
     = match nonempty_text explanation_text with
       | Some t => firstn 5 (split t [10; 10]%N)
       | None => [PLACEHOLDER]
       end
  /\ (1 <= List.length (fallback_content explanation_text) <= 5)%nat.
Proof.
  intros H. unfold explanation_for_storage. rewrite H. cbn [bind].
  split; [reflexivity|]. split; [reflexivity|].
  unfold fallback_content.
  destruct (nonempty_text explanation_text) as [t|]; cbn [List.length].
  - rewrite length_firstn. unfold split.
    pose proof (split_aux_nonempty [10; 10]%N t 0 []). lia.
  - lia.
Qed.

(** ** The quiz (C3, C8) *)

Lemma respond_200 (pf errs : list str) (et qt : option str) (r : response) :
  respond pf errs et qt = Http200 r ->
  exists e q s,
    explanation_for_storage et = Return e
    /\ final_quiz qt = Return (q, s)
    /\ r = {| success := true; explanation := e; quiz := q;
              files_processed := pf; quiz_status := s;
              extraction_errors := errs |}.
Proof.
  unfold respond. intros H.
  destruct (explanation_for_storage et) as [e|x]; cbn [bind] in H;
    [|discriminate].
  destruct (final_quiz qt) as [[q s]|x]; cbn [bind] in H; [|discriminate].
  injection H as <-. now exists e, q, s.
Qed.

Lemma final_quiz_cases (qt : option str) (q : list json) (s : str) :
  final_quiz qt = Return (q, s) ->
  (surviving_questions qt < 5 /\ q = [FALLBACK_QUESTION]
   /\ s = failed_status (surviving_questions qt))%Z
  \/ (5 <= surviving_questions qt /\ parse_quiz qt = Return (Some q)
      /\ len q = surviving_questions qt /\ s = py "Success")%Z.
Proof.
  unfold final_quiz, surviving_questions. intros H.
  destruct (parse_quiz qt) as [[l|]|x]; cbn [bind] in H; try discriminate.
  - destruct (len l <? 5)%Z eqn:E; injection H as <- <-.
    + left. apply Z.ltb_lt in E. auto.
    + right. apply Z.ltb_ge in E. auto.
  - injection H as <- <-. left. split; [lia | auto].
Qed.


(** C8, amended: every question in the final quiz of a successful
    non-fallback response passed the validity filter: it is an object
    with a true [question], a true [correctAnswer] and an [options] list
    of at least 4 elements. *)
Theorem quiz_questions_valid (pf errs : list str) (et qt : option str)
    (r : response) (q : json) :
  respond pf errs et qt = Http200 r ->
  quiz r <> [FALLBACK_QUESTION] ->
  In q (quiz r) ->
  exists d l,
    q = JObj d
    /\ truthy_get d "question" = true
    /\ truthy_get d "correctAnswer" = true
    /\ dict_get d (py "options") = Some (JArr l)
    /\ (4 <= len l)%Z.
Proof.
  intros H Hnf Hin. apply respond_200 in H as (e & qs & s & _ & Hq & ->).
  cbn [quiz] in *.
  apply final_quiz_cases in Hq as [(_ & -> & _)|(_ & Hp & _)]; [congruence|].
  assert (Hv : valid_question q = true).
  { unfold parse_quiz in Hp.
    destruct (nonempty_text qt) as [t|]; [|discriminate].
    destruct (clean_and_parse_json t true) as [[v|]|x]; cbn [bind] in Hp;
      try discriminate.
    destruct (truthy v); [|discriminate].
    injection Hp as <-. now apply filter_In in Hin. }
  destruct q as [| | | | |?|d]; try discriminate.
  exists d. cbn [valid_question] in Hv.
  destruct (dict_get d (py "options")) as [[| | | | |l|]|] eqn:Ho;
    try (rewrite !andb_false_r in Hv; discriminate).
  exists l. apply andb_prop in Hv as [Hv H4].
  apply andb_prop in Hv as [Hv Hc]. apply andb_prop in Hv as [Hq _].
  apply Z.leb_le in H4. auto.
Qed.

(** ** The text extractor (C9) *)








(** ** The decoder: consumption and termination *)

Ltac break_match_hyp H :=
  match type of H with
  | context [match ?x with _ => _ end] =>
      let E := fresh "E" in destruct x eqn:E
  | context [if ?x then _ else _] =>
      let E := fresh "E" in destruct x eqn:E
  end.

Lemma skip_ws_length (s : str) :
  (List.length (skip_ws s) <= List.length s)%nat.
Proof.
  induction s as [|c r IH]; simpl; [lia|].
  destruct (is_ws c); simpl; lia.
Qed.

Lemma scanstring_length_aux (n : nat) :
  forall s acc v r,
    (List.length s <= n)%nat ->
    scanstring s acc = POk v r -> (List.length r < List.length s)%nat.
Proof.
  induction n as [|n IH]; intros s acc v r Hn H.
  - destruct s; [discriminate | simpl in Hn; lia].
  - destruct s as [|c s]; [discriminate|].
    cbn [scanstring] in H. unfold perr in H.
    repeat (break_match_hyp H; try discriminate; subst);
      cbn [List.length] in *;
      try (injection H as <- <-; lia);
      try (apply IH in H; cbn [List.length] in *; lia).
Qed.

Lemma scanstring_length (s acc v r : str) :
  scanstring s acc = POk v r -> (List.length r < List.length s)%nat.
Proof. apply scanstring_length_aux with (n := List.length s). lia. Qed.

Lemma span_digits_length (s d t : str) :
  span_digits s = (d, t) -> (List.length d + List.length t)%nat = List.length s.
Proof.
  revert d t. induction s as [|c r IH]; intros d t H; simpl in H.
  - injection H as <- <-. reflexivity.
  - destruct (is_digit c).
    + destruct (span_digits r) as [d' t'] eqn:E. injection H as <- <-.
      specialize (IH _ _ eq_refl). simpl. lia.
    + injection H as <- <-. reflexivity.
Qed.

Lemma match_int_part_length (s ds r : str) :
  match_int_part s = Some (ds, r) ->
  (List.length r < List.length s)%nat.
Proof.
  unfold match_int_part. intros H.
  destruct s as [|c s]; [discriminate|].
  destruct (c =? 48)%N.
  - injection H as <- <-. simpl. lia.
  - destruct (is_digit c); [|discriminate].
    destruct (span_digits s) as [d t] eqn:E. injection H as <- <-.
    apply span_digits_length in E. simpl. lia.
Qed.

Lemma match_frac_length (s fr r : str) :
  match_frac s = (fr, r) -> (List.length r <= List.length s)%nat.
Proof.
  unfold match_frac. intros H.
  destruct s as [|dot [|c s]]; try (injection H as <- <-; simpl; lia).
  destruct ((dot =? 46)%N && is_digit c).
  - destruct (span_digits s) as [d t] eqn:E. injection H as <- <-.
    apply span_digits_length in E. simpl. lia.
  - injection H as <- <-. simpl. lia.
Qed.

Lemma match_exp_length (s ex r : str) :
  match_exp s = (ex, r) -> (List.length r <= List.length s)%nat.
Proof.
  unfold match_exp, match_sign. intros H.
  destruct s as [|e s]; [injection H as <- <-; simpl; lia|].
  destruct ((e =? 101) || (e =? 69))%N; [|injection H as <- <-; simpl; lia].
  destruct s as [|c s'].
  - simpl in H. injection H as <- <-. simpl. lia.
  - destruct ((c =? 43) || (c =? 45))%N.
    + destruct (span_digits s') as [d t] eqn:E.
      apply span_digits_length in E.
      destruct d; injection H as <- <-; simpl in *; lia.
    + destruct (span_digits (c :: s')) as [d t] eqn:E.
      apply span_digits_length in E.
      destruct d; injection H as <- <-; simpl in *; lia.
Qed.

Lemma match_number_length (s : str) (v : json) (r : str) :
  match_number s = POk v r -> (List.length r < List.length s)%nat.
Proof.
  unfold match_number. intros H.
  destruct (match s with
            | [] => ([], s)
            | c :: r0 => if (c =? 45)%N then ([c], r0) else ([], s)
            end) as [sg s1] eqn:Es.
  assert (Hs1 : (List.length s1 <= List.length s)%nat).
  { destruct s as [|c s]; [injection Es as <- <-; lia|].
    destruct (c =? 45)%N; injection Es as <- <-; simpl; lia. }
  destruct (match_int_part s1) as [[ds s2]|] eqn:Ei; [|discriminate].
  apply match_int_part_length in Ei.
  destruct (match_frac s2) as [fr s3] eqn:Ef. apply match_frac_length in Ef.
  destruct (match_exp s3) as [ex s4] eqn:Ee. apply match_exp_length in Ee.
  destruct fr, ex; try break_match_hyp H; try discriminate;
    injection H as <- <-; lia.
Qed.

Lemma literal_length (lit : string) (s r : str) :
  literal lit s = Some r -> lit <> EmptyString ->
  (List.length r < List.length s)%nat.
Proof.
  unfold literal. intros H Hne.
  destruct (startswith s (py lit)) eqn:E; [|discriminate].
  injection H as <-.
  destruct lit as [|a lit]; [congruence|].
  destruct s as [|c s]; [discriminate|].
  change (py (String a lit)) with (N_of_ascii a :: py lit).
  cbn [List.length skipn]. rewrite length_skipn. lia.
Qed.

Lemma scan_constants_length (s : str) (v : json) (r : str) :
  scan_constants s = POk v r -> (List.length r < List.length s)%nat.
Proof.
  unfold scan_constants. intros H.
  repeat (break_match_hyp H;
          [injection H as <- <-;
           eapply literal_length; [eassumption | discriminate]|]).
  eapply match_number_length; eassumption.
Qed.

Lemma scan_once_S (f k : nat) (s : str) :
  scan_once (S f) k s =
  match s with
  | [] => perr ExpectingValue
  | c :: r =>
      if (c =? QUOTE)%N then
        match scanstring r [] with
        | POk v r' => POk (JStr v) r'
        | PRaise e => PRaise e
        end
      else if (c =? OPEN_BRACE)%N then
        match k with
        | O => PRaise RecursionError
        | S inner =>
            match skip_ws r with
            | c' :: r' =>
                if (c' =? CLOSE_BRACE)%N then POk (JObj []) r'
                else object_loop f inner (c' :: r') []
            | [] => object_loop f inner [] []
            end
        end
      else if (c =? OPEN_BRACKET)%N then
        match k with
        | O => PRaise RecursionError
        | S inner =>
            match skip_ws r with
            | c' :: r' =>
                if (c' =? CLOSE_BRACKET)%N then POk (JArr []) r'
                else array_loop f inner (c' :: r') []
            | [] => array_loop f inner [] []
            end
        end
      else scan_constants s
  end.
Proof. reflexivity. Qed.

Lemma object_loop_S (f k : nat) (s : str) (d : dict) :
  object_loop (S f) k s d =
  match s with
  | c :: r =>
      if (c =? QUOTE)%N then
        match scanstring r [] with
        | PRaise e => PRaise e
        | POk key r1 =>
            match skip_ws r1 with
            | c1 :: r2 =>
                if (c1 =? COLON)%N then
                  match scan_once f k (skip_ws r2) with
                  | PRaise e => PRaise e
                  | POk v r3 =>
                      match skip_ws r3 with
                      | c3 :: r4 =>
                          if (c3 =? CLOSE_BRACE)%N
                          then POk (JObj (dict_set d key v)) r4
                          else if (c3 =? COMMA)%N
                          then object_loop f k (skip_ws r4)
                                 (dict_set d key v)
                          else perr ExpectingCommaDelimiter
                      | [] => perr ExpectingCommaDelimiter
                      end
                  end
                else perr ExpectingColonDelimiter
            | [] => perr ExpectingColonDelimiter
            end
        end
      else perr ExpectingPropertyName
  | [] => perr ExpectingPropertyName
  end.
Proof. reflexivity. Qed.

Lemma array_loop_S (f k : nat) (s : str) (acc : list json) :
  array_loop (S f) k s acc =
  match scan_once f k s with
  | PRaise e => PRaise e
  | POk v r =>
      match skip_ws r with
      | c :: r' =>
          if (c =? CLOSE_BRACKET)%N then POk (JArr (rev (v :: acc))) r'
          else if (c =? COMMA)%N
          then array_loop f k (skip_ws r') (v :: acc)
          else perr ExpectingCommaDelimiter
      | [] => perr ExpectingCommaDelimiter
      end
  end.
Proof. reflexivity. Qed.

Lemma skip_ws_cons_length (s : str) (c : char) (r : str) :
  skip_ws s = c :: r -> (List.length r < List.length s)%nat.
Proof.
  intros H. pose proof (skip_ws_length s) as L. rewrite H in L.
  simpl in L. lia.
Qed.

(** A value, a member list or an element list that is read consumes
    input. *)
Lemma scan_consumes (f : nat) :
  (forall k s v r, scan_once f k s = POk v r ->
                   (List.length r < List.length s)%nat)
  /\ (forall k s d v r, object_loop f k s d = POk v r ->
                        (List.length r < List.length s)%nat)
  /\ (forall k s acc v r, array_loop f k s acc = POk v r ->
                          (List.length r < List.length s)%nat).
Proof.
  induction f as [|f (IHs & IHo & IHa)].
  - repeat split; intros; discriminate.
  - split; [|split].
    + intros k s v r H. rewrite scan_once_S in H. unfold perr in H.
      destruct s as [|c s]; [discriminate|]. cbn [List.length].
      repeat (break_match_hyp H; try discriminate);
        try (injection H as <- <-);
        try apply scanstring_length in E0;
        try apply IHo in H; try apply IHa in H;
        try apply scan_constants_length in H;
        try (pose proof (skip_ws_length s));
        try match goal with
            | E : skip_ws _ = _ |- _ => rewrite E in *
            end;
        cbn [List.length] in *; lia.
    + intros k s d v r H. rewrite object_loop_S in H. unfold perr in H.
      repeat (break_match_hyp H; try discriminate); subst;
        try (injection H as <- <-);
        try apply IHo in H;
        repeat match goal with
               | E : scanstring _ _ = POk _ _ |- _ =>
                   apply scanstring_length in E
               | E : scan_once _ _ _ = POk _ _ |- _ => apply IHs in E
               | E : skip_ws _ = _ :: _ |- _ =>
                   apply skip_ws_cons_length in E
               end;
        try match goal with
            | |- context [skip_ws ?x] => pose proof (skip_ws_length x)
            end;
        repeat match goal with
               | H : context [skip_ws ?x] |- _ =>
                   lazymatch goal with
                   | _ : (List.length (skip_ws x) <= _)%nat |- _ => fail
                   | _ => pose proof (skip_ws_length x)
                   end
               end;
        cbn [List.length] in *; lia.
    + intros k s acc v r H. rewrite array_loop_S in H. unfold perr in H.
      repeat (break_match_hyp H; try discriminate); subst;
        try (injection H as <- <-);
        try apply IHa in H;
        repeat match goal with
               | E : scan_once _ _ _ = POk _ _ |- _ => apply IHs in E
               | E : skip_ws _ = _ :: _ |- _ =>
                   apply skip_ws_cons_length in E
               end;
        repeat match goal with
               | H : context [skip_ws ?x] |- _ =>
                   lazymatch goal with
                   | _ : (List.length (skip_ws x) <= _)%nat |- _ => fail
                   | _ => pose proof (skip_ws_length x)
                   end
               end;
        cbn [List.length] in *; lia.
Qed.

Lemma scanstring_fuel_aux (n : nat) :
  forall s acc, (List.length s <= n)%nat ->
                scanstring s acc <> PRaise FuelExhausted.
Proof.
  induction n as [|n IH]; intros s acc Hn H.
  - destruct s; [discriminate | simpl in Hn; lia].
  - destruct s as [|c s]; [discriminate|].
    cbn [scanstring] in H. unfold perr in H.
    repeat (break_match_hyp H; try discriminate; subst);
      cbn [List.length] in *;
      (apply IH in H; [exact H | cbn [List.length]; lia]).
Qed.

Lemma scanstring_fuel (s acc : str) :
  scanstring s acc <> PRaise FuelExhausted.
Proof. apply scanstring_fuel_aux with (n := List.length s). lia. Qed.

Lemma scan_constants_fuel (s : str) :
  scan_constants s <> PRaise FuelExhausted.
Proof.
  unfold scan_constants, match_number, perr. intros H.
  repeat (break_match_hyp H; try discriminate).
Qed.

(** With fuel for twice the length of the input the scanner never runs
    out of it. *)
Lemma scan_fuel (f : nat) :
  (forall k s, (2 * List.length s + 1 <= f)%nat ->
               scan_once f k s <> PRaise FuelExhausted)
  /\ (forall k s d, (2 * List.length s + 2 <= f)%nat ->
                    object_loop f k s d <> PRaise FuelExhausted)
  /\ (forall k s acc, (2 * List.length s + 2 <= f)%nat ->
                      array_loop f k s acc <> PRaise FuelExhausted).
Proof.
  induction f as [|f (IHs & IHo & IHa)].
  - repeat split; intros; lia.
  - split; [|split].
    + intros k s Hf H. rewrite scan_once_S in H. unfold perr in H.
      destruct s as [|c s]; [discriminate|]. cbn [List.length] in Hf.
      destruct (c =? QUOTE)%N.
      { destruct (scanstring s []) eqn:E; [discriminate|].
        injection H as ->. now apply scanstring_fuel in E. }
      pose proof (skip_ws_length s) as L.
      destruct (c =? OPEN_BRACE)%N.
      { destruct k as [|k]; [discriminate|].
        destruct (skip_ws s) as [|c' r'] eqn:E.
        - apply IHo in H; [exact H | simpl; lia].
        - destruct (c' =? CLOSE_BRACE)%N; [discriminate|].
          apply IHo in H; [exact H | lia]. }
      destruct (c =? OPEN_BRACKET)%N.
      { destruct k as [|k]; [discriminate|].
        destruct (skip_ws s) as [|c' r'] eqn:E.
        - apply IHa in H; [exact H | simpl; lia].
        - destruct (c' =? CLOSE_BRACKET)%N; [discriminate|].
          apply IHa in H; [exact H | lia]. }
      now apply scan_constants_fuel in H.
    + intros k s d Hf H. rewrite object_loop_S in H. unfold perr in H.
      destruct s as [|c s]; [discriminate|]. cbn [List.length] in Hf.
      destruct (c =? QUOTE)%N; [|discriminate].
      destruct (scanstring s []) as [key r1|e] eqn:E1.
      2:{ injection H as ->. now apply scanstring_fuel in E1. }
      apply scanstring_length in E1.
      destruct (skip_ws r1) as [|c1 r2] eqn:E2; [discriminate|].
      apply skip_ws_cons_length in E2.
      destruct (c1 =? COLON)%N; [|discriminate].
      pose proof (skip_ws_length r2) as L2.
      destruct (scan_once f k (skip_ws r2)) as [v r3|e] eqn:E3.
      2:{ injection H as ->. apply IHs in E3; [exact E3 | lia]. }
      apply (proj1 (scan_consumes f)) in E3.
      destruct (skip_ws r3) as [|c3 r4] eqn:E4; [discriminate|].
      apply skip_ws_cons_length in E4.
      destruct (c3 =? CLOSE_BRACE)%N; [discriminate|].
      destruct (c3 =? COMMA)%N; [|discriminate].
      pose proof (skip_ws_length r4) as L4.
      apply IHo in H; [exact H | lia].
    + intros k s acc Hf H. rewrite array_loop_S in H. unfold perr in H.
      destruct (scan_once f k s) as [v r|e] eqn:E1.
      2:{ injection H as ->. apply IHs in E1; [exact E1 | lia]. }
      apply (proj1 (scan_consumes f)) in E1.
      destruct (skip_ws r) as [|c r'] eqn:E2; [discriminate|].
      apply skip_ws_cons_length in E2.
      destruct (c =? CLOSE_BRACKET)%N; [discriminate|].
      destruct (c =? COMMA)%N; [|discriminate].
      pose proof (skip_ws_length r') as L.
      apply IHa in H; [exact H | lia].
Qed.

(** [json.loads] is total: the fuel of the model is never exhausted. *)
Lemma json_loads_terminates (s : str) :
  json_loads s <> Raise FuelExhausted.
Proof.
  unfold json_loads. intros H.
  destruct (startswith s [65279%N]); [discriminate|].
  destruct (scan_once _ _ _) as [v r|e] eqn:E.
  - destruct (skip_ws r); discriminate.
  - injection H as ->. apply (proj1 (scan_fuel _)) in E; [exact E|].
    pose proof (skip_ws_length s). lia.
Qed.

(** ** The shape of what the coercer returns (C10, C1) *)

Lemma object_loop_dict (f : nat) :
  forall k s d v r,
    object_loop f k s d = POk v r -> isinstance_dict v = true.
Proof.
  induction f as [|f IH]; intros k s d v r H; [discriminate|].
  rewrite object_loop_S in H. unfold perr in H.
  repeat (break_match_hyp H; try discriminate).
  - injection H as <- <-. reflexivity.
  - eapply IH; eassumption.
Qed.

Lemma array_loop_list (f : nat) :
  forall k s acc v r,
    array_loop f k s acc = POk v r -> isinstance_list v = true.
Proof.
  induction f as [|f IH]; intros k s acc v r H; [discriminate|].
  rewrite array_loop_S in H. unfold perr in H.
  repeat (break_match_hyp H; try discriminate).
  - injection H as <- <-. reflexivity.
  - eapply IH; eassumption.
Qed.

Lemma scan_once_shape (is_list : bool) (f k : nat) (s : str) (v : json)
    (r : str) :
  scan_once f k (start_char is_list :: s) = POk v r ->
  has_shape is_list v = true.
Proof.
  destruct f as [|f]; [discriminate|]. rewrite scan_once_S.
  destruct is_list; cbv [start_char has_shape]; intros H.
  - change (OPEN_BRACKET =? QUOTE)%N with false in H.
    change (OPEN_BRACKET =? OPEN_BRACE)%N with false in H.
    change (OPEN_BRACKET =? OPEN_BRACKET)%N with true in H. cbv iota in H.
    destruct k as [|k]; [discriminate|].
    destruct (skip_ws s) as [|c' r'];
      [now apply array_loop_list in H|].
    destruct (c' =? CLOSE_BRACKET)%N;
      [injection H as <- <-; reflexivity | now apply array_loop_list in H].
  - change (OPEN_BRACE =? QUOTE)%N with false in H.
    change (OPEN_BRACE =? OPEN_BRACE)%N with true in H. cbv iota in H.
    destruct k as [|k]; [discriminate|].
    destruct (skip_ws s) as [|c' r'];
      [now apply object_loop_dict in H|].
    destruct (c' =? CLOSE_BRACE)%N;
      [injection H as <- <-; reflexivity | now apply object_loop_dict in H].
Qed.

Lemma json_loads_shape (is_list : bool) (s : str) (v : json) :
  json_loads (start_char is_list :: s) = Return v ->
  has_shape is_list v = true.
Proof.
  unfold json_loads. intros H.
  assert (Hb : startswith (start_char is_list :: s) [65279%N] = false)
    by (destruct is_list; reflexivity).
  rewrite Hb in H.
  assert (Hw : skip_ws (start_char is_list :: s) = start_char is_list :: s)
    by (destruct is_list; reflexivity).
  rewrite Hw in H. clear Hb Hw.
  destruct (scan_once _ _ _) as [v' r|e] eqn:E; [|discriminate].
  apply scan_once_shape in E.
  destruct (skip_ws r); [|discriminate]. now injection H as <-.
Qed.

Lemma find_range (s : str) (c : char) :
  find s c = (-1)%Z \/ (0 <= find s c)%Z.
Proof.
  induction s as [|x r IH]; simpl; [auto|].
  destruct (x =? c)%N; [right; lia|].
  destruct (find r c <? 0)%Z eqn:E; [auto|].
  apply Z.ltb_ge in E. right. lia.
Qed.

(** The slice from the first occurrence of a character starts with it. *)
Lemma slice_find_head (c : char) (s : str) :
  forall e, find s c <> (-1)%Z -> (find s c <= e)%Z ->
            exists r, slice s (find s c) (e + 1) = c :: r.
Proof.
  induction s as [|x r IH]; intros e Hf He; simpl in *; [congruence|].
  destruct (x =? c)%N eqn:Ex.
  - apply N.eqb_eq in Ex. subst x. unfold slice. simpl.
    replace (Z.to_nat (e + 1 - 0)) with (S (Z.to_nat e)) by lia.
    simpl. eauto.
  - destruct (find r c <? 0)%Z eqn:E; [congruence|].
    apply Z.ltb_ge in E.
    destruct (IH (e - 1)%Z) as [t Ht]; [lia | lia |].
    exists t. rewrite <- Ht. unfold slice.
    replace (Z.to_nat (find r c + 1)) with (S (Z.to_nat (find r c))) by lia.
    simpl. f_equal. lia.
Qed.

Lemma clean_content_head (is_list : bool) (s : str) :
  clean_content (start_char is_list :: s)
  = start_char is_list :: clean_content s.
Proof. destruct is_list; reflexivity. Qed.

Lemma remove_trailing_commas_head (is_list : bool) (s : str) :
  remove_trailing_commas false (start_char is_list :: s)
  = start_char is_list :: remove_trailing_commas false s.
Proof. destruct is_list; reflexivity. Qed.

Lemma clean_and_parse_json_steps (text : str) (is_list : bool) :
  clean_and_parse_json text is_list
  = match json_content text is_list with
    | Some content => decode_with_repair content
    | None => Return None
    end.
Proof.
  unfold clean_and_parse_json, json_content, start_char.
  destruct text as [|c t]; [reflexivity|].
  cbv zeta. destruct (_ || _ || _)%bool; reflexivity.
Qed.

Lemma json_content_head (text : str) (is_list : bool) (content : str) :
  json_content text is_list = Some content ->
  exists r, content = start_char is_list :: r.
Proof.
  unfold json_content. destruct text as [|c t]; [discriminate|].
  cbv zeta. set (text := strip_fences (strip (c :: t))).
  destruct (_ || _ || _)%bool eqn:E; [discriminate|].
  intros H. injection H as <-.
  apply orb_false_elim in E as [E E3]. apply orb_false_elim in E as [E1 E2].
  apply Z.eqb_neq in E1. apply Z.ltb_ge in E3.
  destruct (slice_find_head (start_char is_list) text E1 E3) as [r Hr].
  rewrite Hr, clean_content_head. eauto.
Qed.

Lemma decode_with_repair_shape (is_list : bool) (s : str) (v : json) :
  decode_with_repair (start_char is_list :: s) = Return (Some v) ->
  has_shape is_list v = true.
Proof.
  unfold decode_with_repair. intros H.
  destruct (json_loads (start_char is_list :: s)) as [v'|e] eqn:E.
  - cbn [bind try_decode] in H. injection H as <-. now apply json_loads_shape in E.
  - cbn [bind try_decode] in H. destruct e as [e| | | |]; try discriminate.
    destruct (repairable e); [|discriminate].
    rewrite remove_trailing_commas_head in H.
    match type of H with
    | context [json_loads ?x] =>
        destruct (json_loads x) as [v'|e'] eqn:E'
    end; cbn [bind try_decode] in H.
    + injection H as <-. now apply json_loads_shape in E'.
    + destruct e'; discriminate.
Qed.

Lemma coercer_shape (text : str) (is_list : bool) (v : json) :
  clean_and_parse_json text is_list = Return (Some v) ->
  has_shape is_list v = true.
Proof.
  rewrite clean_and_parse_json_steps.
  destruct (json_content text is_list) as [content|] eqn:E; [|discriminate].
  apply json_content_head in E as [r ->].
  apply decode_with_repair_shape.
Qed.

(** C10: whenever the coercer is called with [is_list=True] and returns a
    value, that value is a list, so the caller's unwrap of the keys
    [quiz] and [questions] and its wrapping of a single value are never
    taken: [unwrap_quiz] gives the list itself. *)
Theorem coercer_list_result (text : str) (v : json) :
  clean_and_parse_json text true = Return (Some v) ->
  exists l, v = JArr l /\ unwrap_quiz v = l.
Proof.
  intros H. apply coercer_shape in H. cbv [has_shape] in H.
  destruct v; try discriminate. eauto.
Qed.

(** C1, amended: in every successful response the explanation is a
    one-element array whose element is an object: the object the coercer
    decoded from the completion, with whatever fields it has, or, when
    the coercer returned [None], the fallback object, which has a string
    topic and a content of strings. *)
Theorem explanation_one_element (pf errs : list str) (et qt : option str)
    (r : response) :
  respond pf errs et qt = Http200 r ->
  exists d,
    explanation r = JArr [JObj d]
    /\ (parse_explanation et = Return (Some (JObj d))
        \/ parse_explanation et = Return None
           /\ d = [(py "topic", JStr FAILED_TOPIC);
                   (py "content",
                    JArr (List.map JStr (fallback_content et)))]).
Proof.
  intros H. apply respond_200 in H as (e & q & s & He & _ & ->).
  cbn [explanation]. unfold explanation_for_storage in He.
  destruct (parse_explanation et) as [[v|]|x] eqn:Hp; cbn [bind] in He;
    [| |discriminate].
  - assert (Hd : isinstance_dict v = true).
    { unfold parse_explanation in Hp.
      destruct (nonempty_text et); [|discriminate].
      now apply coercer_shape in Hp. }
    rewrite Hd in He. injection He as <-.
    destruct v; try discriminate. eauto.
  - unfold fallback_explanation in He. cbn [isinstance_dict] in He.
    injection He as <-.
    eexists. split; [reflexivity|]. right. split; reflexivity.
Qed.

(** ** Exceptions of the coercer (C7) and the repair pass (C2) *)

Lemma scanstring_exn_aux (n : nat) :
  forall s acc e, (List.length s <= n)%nat ->
                  scanstring s acc = PRaise e -> decoder_exn e.
Proof.
  induction n as [|n IH]; intros s acc e Hn H.
  - destruct s; [injection H as <-; exact I | simpl in Hn; lia].
  - destruct s as [|c s]; [injection H as <-; exact I|].
    cbn [scanstring] in H. unfold perr in H.
    repeat (break_match_hyp H; try discriminate; subst);
      cbn [List.length] in *;
      try (injection H as <-; exact I);
      (apply IH in H; [exact H | cbn [List.length]; lia]).
Qed.

Lemma scanstring_exn (s acc : str) (e : exn) :
  scanstring s acc = PRaise e -> decoder_exn e.
Proof. apply scanstring_exn_aux with (n := List.length s). lia. Qed.

Lemma scan_constants_exn (s : str) (e : exn) :
  scan_constants s = PRaise e -> decoder_exn e.
Proof.
  unfold scan_constants, match_number, perr. intros H.
  repeat (break_match_hyp H; try discriminate);
    injection H as <-; exact I.
Qed.

Lemma scan_exn (f : nat) :
  (forall k s e, scan_once f k s = PRaise e -> decoder_exn e)
  /\ (forall k s d e, object_loop f k s d = PRaise e -> decoder_exn e)
  /\ (forall k s acc e, array_loop f k s acc = PRaise e -> decoder_exn e).
Proof.
  induction f as [|f (IHs & IHo & IHa)].
  - repeat split; intros; injection H as <-; exact I.
  - split; [|split].
    + intros k s e H. rewrite scan_once_S in H. unfold perr in H.
      repeat (break_match_hyp H; try discriminate); subst;
        try (injection H as <-; try exact I);
        eauto using scanstring_exn, scan_constants_exn.
    + intros k s d e H. rewrite object_loop_S in H. unfold perr in H.
      repeat (break_match_hyp H; try discriminate); subst;
        try (injection H as <-; try exact I);
        eauto using scanstring_exn.
    + intros k s acc e H. rewrite array_loop_S in H. unfold perr in H.
      repeat (break_match_hyp H; try discriminate); subst;
        try (injection H as <-; try exact I); eauto.
Qed.

(** [json.loads] returns a value or raises [JSONDecodeError],
    [ValueError] or [RecursionError]. *)
Lemma json_loads_outcome (s : str) :
  (exists v, json_loads s = Return v)
  \/ (exists e, json_loads s = Raise (JSONDecodeError e))
  \/ json_loads s = Raise ValueError
  \/ json_loads s = Raise RecursionError.
Proof.
  pose proof (json_loads_terminates s) as T.
  destruct (json_loads s) as [v|[e| | |m|]] eqn:E; eauto 6; [|congruence].
  exfalso. unfold json_loads in E.
  destruct (startswith s [65279%N]); [discriminate|].
  destruct (scan_once _ _ _) as [v r|x] eqn:Es.
  - destruct (skip_ws r); discriminate.
  - injection E as ->. now apply (proj1 (scan_exn _)) in Es.
Qed.

Lemma decode_with_repair_outcome (content : str) :
  (exists r, decode_with_repair content = Return r)
  \/ decode_with_repair content = Raise ValueError
  \/ decode_with_repair content = Raise RecursionError.
Proof.
  unfold decode_with_repair.
  destruct (json_loads_outcome content) as [[v ->]|[[e ->]|[->| ->]]];
    cbn [bind try_decode]; eauto.
  destruct (repairable e); [|eauto].
  destruct (json_loads_outcome (remove_trailing_commas false content))
    as [[v ->]|[[e' ->]|[->| ->]]]; cbn [bind try_decode]; eauto.
Qed.

(** What the coercer does guarantee: for every input string it returns a
    parsed value or [None], or lets the [ValueError] of the integer
    conversion or the [RecursionError] of a nesting that is too deep
    escape; no [JSONDecodeError] escapes.  It returns [None] on
    empty text, when the expected opening bracket is missing, when the
    matching closing bracket is missing and when the closing position
    precedes the opening position. *)
Theorem coercer_outcome (text : str) (is_list : bool) :
  ((exists r, clean_and_parse_json text is_list = Return r)
   \/ clean_and_parse_json text is_list = Raise ValueError
   \/ clean_and_parse_json text is_list = Raise RecursionError)
  /\ (fails_early text is_list = true ->
      clean_and_parse_json text is_list = Return None).
Proof.
  rewrite clean_and_parse_json_steps. split.
  - destruct (json_content text is_list); [|eauto].
    apply decode_with_repair_outcome.
  - unfold fails_early, json_content. destruct text; [reflexivity|].
    cbv zeta. intros ->. reflexivity.
Qed.

(** ** The round trip through the serializer (C6) *)

(** *** The serialized text is printable ASCII *)














(** *** Steps 1 to 3 leave a serialized container as it is *)






(** *** Strings *)









(** *** Integers *)












(** *** Values *)



(** *** Floats *)




Lemma no_digit_head_app (s rest : str) :
  no_digit_head s -> no_digit_head rest -> no_digit_head (s ++ rest).
Proof. destruct s; auto. Qed.



















(** *** The serialized text is printable and starts like a value *)







Lemma delimited_closer (c : char) (rest : str) :
  c = CLOSE_BRACKET \/ c = CLOSE_BRACE \/ c = COMMA ->
  delimited (c :: rest) = true.
Proof. intros [->|[->| ->]]; reflexivity. Qed.









(* ------------------------------------------------------------------ *)
(** * Further properties of the code *)

(** ** The page loop of the PDF branch *)

Lemma firstn_app_long {A} (n : nat) (a b : list A) :
  (n <= List.length a)%nat -> firstn n (a ++ b) = firstn n a.
Proof.
  intros H. rewrite firstn_app.
  replace (n - List.length a)%nat with 0%nat by lia.
  cbn [firstn]. apply app_nil_r.
Qed.

(** The loop from any text within the limit: the text of all pages is
    appended, and what exceeds the limit is replaced by the marker. *)
Lemma extract_pages_spec (pages : list (exc str)) :
  forall text,
    (len text <= MAX_API_CONTEXT_SIZE * 2)%Z ->
    extract_pages pages text
    = if (len (text ++ all_text pages) <=? MAX_API_CONTEXT_SIZE * 2)%Z
      then text ++ all_text pages
      else firstn (Z.to_nat (MAX_API_CONTEXT_SIZE * 2))
             (text ++ all_text pages) ++ EXTRACTION_MARKER.
Proof.
  induction pages as [|page rest IH]; intros text Ht.
  - cbn [extract_pages all_text flat_map]. rewrite app_nil_r.
    apply Z.leb_le in Ht. now rewrite Ht.
  - cbn [extract_pages all_text flat_map]. fold (all_text rest).
    assert (Hskip : page_line page = [] ->
                    extract_pages rest text
                    = if (len (text ++ page_line page ++ all_text rest)
                          <=? MAX_API_CONTEXT_SIZE * 2)%Z
                      then text ++ page_line page ++ all_text rest
                      else firstn (Z.to_nat (MAX_API_CONTEXT_SIZE * 2))
                             (text ++ page_line page ++ all_text rest)
                           ++ EXTRACTION_MARKER).
    { intros ->. cbn [app]. now apply IH. }
    destruct page as [[|c t]|e]; cbn [page_line] in *.
    + replace (MAX_API_CONTEXT_SIZE * 2 <? len text)%Z with false
        by (symmetry; apply Z.ltb_ge; exact Ht).
      now apply Hskip.
    + clear Hskip. set (line := (c :: t) ++ [10%N]).
      destruct (MAX_API_CONTEXT_SIZE * 2 <? len (text ++ line))%Z eqn:E.
      * apply Z.ltb_lt in E.
        assert (Hlong : (MAX_API_CONTEXT_SIZE * 2
                         < len (text ++ line ++ all_text rest))%Z).
        { rewrite app_assoc, len_app.
          pose proof (len_nonneg (all_text rest)). lia. }
        replace (len (text ++ line ++ all_text rest)
                 <=? MAX_API_CONTEXT_SIZE * 2)%Z with false
          by (symmetry; apply Z.leb_gt; exact Hlong).
        unfold slice. rewrite Z.sub_0_r. cbn [Z.to_nat skipn].
        rewrite (app_assoc text line),
          (@firstn_app_long _ _ (text ++ line) (all_text rest));
          [reflexivity|].
        unfold len in E. unfold MAX_API_CONTEXT_SIZE in *. lia.
      * apply Z.ltb_ge in E. rewrite IH by exact E.
        now rewrite <- app_assoc.
    + now apply Hskip.
Qed.

(** X1: the page loop returns the texts of the pages that yield text,
    each followed by a line feed, when they have at most 16000 characters
    together, and else their first 16000 characters followed by the
    truncation marker; pages that fail or are empty add nothing. *)
Theorem extract_pages_all_text (pages : list (exc str)) :
  extract_pages pages []
  = if (len (all_text pages) <=? MAX_API_CONTEXT_SIZE * 2)%Z
    then all_text pages
    else firstn (Z.to_nat (MAX_API_CONTEXT_SIZE * 2)) (all_text pages)
         ++ EXTRACTION_MARKER.
Proof.
  rewrite extract_pages_spec.
  - reflexivity.
  - unfold len, MAX_API_CONTEXT_SIZE. cbn [List.length]. lia.
Qed.

(** X2: whatever the pages hold, the text the page loop returns has at
    most 16000 characters plus the 56 of the truncation marker. *)
Theorem extract_pages_bounded (pages : list (exc str)) :
  (len (extract_pages pages [])
   <= MAX_API_CONTEXT_SIZE * 2 + len EXTRACTION_MARKER)%Z
  /\ len EXTRACTION_MARKER = 56%Z.
Proof.
  split; [|reflexivity]. rewrite extract_pages_spec by now cbv.
  cbn [app]. pose proof (len_nonneg EXTRACTION_MARKER) as Hm.
  destruct (len (all_text pages) <=? MAX_API_CONTEXT_SIZE * 2)%Z eqn:E.
  - apply Z.leb_le in E. lia.
  - rewrite len_app. unfold len at 1. rewrite length_firstn.
    unfold MAX_API_CONTEXT_SIZE in *. lia.
Qed.

(** X3: a page whose extraction raises is skipped: the loop continues
    and returns what it returns without that page, from any text. *)
Theorem extract_pages_skips_failed (before after : list (exc str))
    (e : exn) (text : str) :
  extract_pages (before ++ Raise e :: after) text
  = extract_pages (before ++ after) text.
Proof.
  revert text. induction before as [|page rest IH]; intros text.
  - reflexivity.
  - cbn [app extract_pages]. destruct page as [page_text|e'].
    + destruct (_ <? _)%Z; [reflexivity | apply IH].
    + apply IH.
Qed.

(** ** The file loop of [process_files] *)

Lemma lstrip_keeps (c : char) (s : str) :
  In c s -> isspace c = false -> In c (lstrip s).
Proof.
  intros Hin Hc. induction s as [|x r IH]; [contradiction|].
  cbn [lstrip]. destruct (isspace x) eqn:E; [|exact Hin].
  destruct Hin as [->|Hin]; [congruence | now apply IH].
Qed.

(** A text with a character that is no whitespace is not blank. *)
Lemma strip_nonblank (c : char) (s : str) :
  In c s -> isspace c = false -> strip s <> [].
Proof.
  intros Hin Hc. unfold strip, rstrip.
  assert (H : In c (rev (lstrip (rev (lstrip s))))).
  { apply -> in_rev. apply lstrip_keeps; [|exact Hc].
    apply -> in_rev. now apply lstrip_keeps. }
  intros E. rewrite E in H. contradiction.
Qed.

Section LoopProperties.

Variable lower : str -> str.
Variable decode_utf8_ignore : bytes -> exc str.
Variable PdfReader : bytes -> exc (list (exc str)).
Variable PDF_SUPPORT : bool.
Variable secure_filename : str -> str.

Let step := process_file lower decode_utf8_ignore PdfReader PDF_SUPPORT
              secure_filename.
Let good := gives_text lower decode_utf8_ignore PdfReader PDF_SUPPORT.
Let entry := content_entry lower decode_utf8_ignore PdfReader PDF_SUPPORT
               secure_filename.

(** One turn of the loop: a file that gives text extends the combined
    text and the processed names, any other named file adds one error,
    and a file without name changes nothing. *)
Lemma process_file_cases (st : collected) (file : upload) :
  (good file = true
   /\ step st file
      = {| combined := combined st ++ entry file;
           processed := processed st ++ [secure_filename (filename file)];
           errors := errors st |})
  \/ (good file = false /\ has_name file = true
      /\ exists msg, step st file = add_error st msg)
  \/ (good file = false /\ has_name file = false /\ step st file = st).
Proof.
  subst step good entry.
  unfold process_file, gives_text, content_entry, text_of.
  destruct (has_name file) eqn:Hn; cbn [andb].
  - destruct (allowed_file lower (filename file)); cbn [andb].
    + destruct (extract_text_from_file _ _ _ _ file) as [[|c t]|e].
      * right. left. eauto.
      * destruct (startswith (c :: t) [OPEN_BRACKET]); cbn [negb].
        -- right. left. eauto.
        -- left. split; reflexivity.
      * right. left. eauto.
    + right. left. eauto.
  - right. right. auto.
Qed.

Lemma collect_from (files : list upload) :
  forall st,
    let st' := fold_left step files st in
    combined st' = combined st ++ flat_map entry (filter good files)
    /\ processed st'
       = processed st
         ++ List.map (fun f => secure_filename (filename f))
              (filter good files)
    /\ (List.length (processed st') + List.length (errors st')
        = List.length (processed st) + List.length (errors st)
          + List.length (filter has_name files))%nat.
Proof.
  induction files as [|file rest IH]; intros st; cbn zeta.
  - cbn. rewrite !app_nil_r. repeat split. lia.
  - cbn [fold_left filter].
    specialize (IH (step st file)). cbn zeta in IH.
    destruct IH as (Hc & Hp & Hl).
    destruct (process_file_cases st file)
      as [(Hg & Hs)|[(Hg & Hn & msg & Hs)|(Hg & Hn & Hs)]];
      rewrite Hs in Hc, Hp, Hl; rewrite Hs, Hg.
    + assert (Hn : has_name file = true).
      { subst good. unfold gives_text in Hg.
        apply andb_prop in Hg as [Hg _].
        now apply andb_prop in Hg as [Hg _]. }
      rewrite Hn. cbn [combined processed errors] in Hc, Hp, Hl.
      cbn [flat_map List.map List.length].
      rewrite length_app in Hl. cbn [List.length] in Hl.
      split; [now rewrite Hc, <- app_assoc|].
      split; [now rewrite Hp, <- app_assoc|]. lia.
    + rewrite Hn. cbn [add_error combined processed errors] in Hc, Hp, Hl.
      cbn [List.length]. rewrite length_app in Hl.
      cbn [List.length] in Hl.
      split; [exact Hc|]. split; [exact Hp|]. lia.
    + rewrite Hn. split; [exact Hc|]. split; [exact Hp|]. exact Hl.
Qed.

(** X4: the loop lists as processed the secured names of exactly the
    files that gave text, in the order of the upload. *)
Theorem collect_files_processed (files : list upload) :
  processed (collect_files lower decode_utf8_ignore PdfReader PDF_SUPPORT
               secure_filename files)
  = List.map (fun f => secure_filename (filename f)) (filter good files).
Proof.
  unfold collect_files.
  destruct (collect_from files {| combined := []; processed := [];
                                  errors := [] |}) as (_ & H & _).
  exact H.
Qed.

(** X5: every upload with a file name is reported exactly once, as a
    processed file or as an error; nothing is reported for an upload
    without a name. *)
Theorem collect_files_accounts (files : list upload) :
  let st := collect_files lower decode_utf8_ignore PdfReader PDF_SUPPORT
              secure_filename files in
  (List.length (processed st) + List.length (errors st)
   = List.length (filter has_name files))%nat.
Proof.
  cbn zeta. unfold collect_files.
  destruct (collect_from files {| combined := []; processed := [];
                                  errors := [] |}) as (_ & _ & H).
  cbn [processed errors List.length Nat.add] in H. exact H.
Qed.

Lemma content_entry_nonblank (file : upload) : strip (entry file) <> [].
Proof.
  apply (strip_nonblank 45%N); [|reflexivity].
  subst entry. unfold content_entry. cbn. auto.
Qed.

(** The combined text is blank exactly when no file gave text. *)
Lemma collect_files_blank (files : list upload) :
  strip (combined (collect_files lower decode_utf8_ignore PdfReader
                     PDF_SUPPORT secure_filename files)) = []
  <-> filter good files = [].
Proof.
  unfold collect_files.
  destruct (collect_from files {| combined := []; processed := [];
                                  errors := [] |}) as (Hc & _ & _).
  cbn [combined app] in Hc. unfold step in Hc. rewrite Hc.
  destruct (filter good files) as [|f r].
  - split; reflexivity.
  - split; [|discriminate]. intros H. exfalso.
    apply (strip_nonblank 45%N) in H; [exact H| |reflexivity].
    cbn [flat_map]. apply in_or_app. left.
    subst entry. unfold content_entry. cbn. auto.
Qed.

End LoopProperties.

(** ** The whole of [process_files] *)

Lemma respond_not_400 (pf errs : list str) (et qt : option str) (msg : str) :
  respond pf errs et qt <> Http400 msg.
Proof.
  unfold respond. destruct (bind _ _); discriminate.
Qed.

Lemma respond_without_completions (pf errs : list str) :
  respond pf errs None None = Http200 (degraded_response pf errs).
Proof. reflexivity. Qed.

Section HandlerProperties.

Variable lower : str -> str.
Variable decode_utf8_ignore : bytes -> exc str.
Variable PdfReader : bytes -> exc (list (exc str)).
Variable PDF_SUPPORT : bool.
Variable secure_filename : str -> str.
Variable client : option (str -> exc (option str)).

Let handler := process_files lower decode_utf8_ignore PdfReader PDF_SUPPORT
                 secure_filename client.
Let collect := collect_files lower decode_utf8_ignore PdfReader PDF_SUPPORT
                 secure_filename.
Let good := gives_text lower decode_utf8_ignore PdfReader PDF_SUPPORT.

(** The handler on a request whose first upload has a name. *)
Lemma process_files_named (first : upload) (rest : list upload) :
  has_name first = true ->
  let files := first :: rest in
  (filter good files = []
   /\ handler (Some files) = Http400 (no_text_error (errors (collect files))))
  \/ (filter good files <> []
      /\ handler (Some files)
         = respond (processed (collect files)) (errors (collect files))
             (call_openai_api client
                (explanation_prompt (truncate_context
                                       (combined (collect files)))))
             (call_openai_api client
                (quiz_prompt (truncate_context
                                (combined (collect files)))))).
Proof.
  intros Hn. cbn zeta. subst handler collect good. unfold process_files.
  rewrite Hn.
  pose proof (collect_files_blank lower decode_utf8_ignore PdfReader
                PDF_SUPPORT secure_filename (first :: rest)) as Hb.
  destruct (strip (combined _)) as [|c t] eqn:E.
  - left. split; [|reflexivity]. now apply Hb.
  - right. split; [|reflexivity].
    intros Hf. apply Hb in Hf. discriminate.
Qed.

End HandlerProperties.

Lemma collect_files_summary (lower : str -> str)
    (decode : bytes -> exc str) (reader : bytes -> exc (list (exc str)))
    (support : bool) (secure : str -> str) (files : list upload) :
  let st := collect_files lower decode reader support secure files in
  processed st
  = List.map (fun f => secure (filename f))
      (filter (gives_text lower decode reader support) files)
  /\ (List.length (processed st) + List.length (errors st)
      = List.length (filter has_name files))%nat.
Proof.
  cbn zeta. unfold collect_files.
  destruct (collect_from lower decode reader support secure files
              {| combined := []; processed := []; errors := [] |})
    as (_ & Hp & Hl).
  cbn [processed errors List.length Nat.add app] in Hp, Hl. auto.
Qed.

Lemma truncate_context_length (combined_text : str) :
  (len (truncate_context combined_text) <= 8054)%Z.
Proof.
  unfold truncate_context.
  destruct (MAX_API_CONTEXT_SIZE <? len combined_text)%Z eqn:E.
  - apply Z.ltb_lt in E. rewrite len_app, len_slice_prefix;
      unfold MAX_API_CONTEXT_SIZE in *; try lia.
    change (len TRUNCATION_MARKER) with 54%Z. lia.
  - apply Z.ltb_ge in E. unfold MAX_API_CONTEXT_SIZE in *. lia.
Qed.

Section HandlerTheorems.

Variable lower : str -> str.
Variable decode_utf8_ignore : bytes -> exc str.
Variable PdfReader : bytes -> exc (list (exc str)).
Variable PDF_SUPPORT : bool.
Variable secure_filename : str -> str.
Variable client : option (str -> exc (option str)).

Let handler := process_files lower decode_utf8_ignore PdfReader PDF_SUPPORT
                 secure_filename client.
Let collect := collect_files lower decode_utf8_ignore PdfReader PDF_SUPPORT
                 secure_filename.
Let good := gives_text lower decode_utf8_ignore PdfReader PDF_SUPPORT.

(** X6: when the first upload has a name, the request is answered with
    the 400 error exactly when no upload gave text: no named file of an
    allowed type with an extracted text that is neither empty nor a
    bracketed diagnostic. *)
Theorem process_files_400_iff (first : upload) (rest : list upload) :
  has_name first = true ->
  (exists msg, handler (Some (first :: rest)) = Http400 msg)
  <-> filter good (first :: rest) = [].
Proof.
  intros Hn.
  destruct (process_files_named lower decode_utf8_ignore PdfReader
              PDF_SUPPORT secure_filename client first rest Hn)
    as [(Hf & H)|(Hf & H)]; fold handler good in H, Hf.
  - split; [intros _; exact Hf | intros _; eauto].
  - split; [|intros Hf'; contradiction].
    intros (msg & Hm). rewrite H in Hm.
    now apply respond_not_400 in Hm.
Qed.

(** X7: in every successful response [files_processed] holds the secured
    names of the uploads that gave text, in upload order, and is not
    empty, and every upload with a name is counted exactly once in
    [files_processed] or [extraction_errors]. *)
Theorem process_files_success (files : list upload) (r : response) :
  handler (Some files) = Http200 r ->
  files_processed r
  = List.map (fun f => secure_filename (filename f)) (filter good files)
  /\ files_processed r <> []
  /\ (List.length (files_processed r) + List.length (extraction_errors r)
      = List.length (filter has_name files))%nat.
Proof.
  intros H. destruct files as [|first rest].
  { subst handler. discriminate. }
  destruct (has_name first) eqn:Hn.
  2:{ subst handler. unfold process_files in H. rewrite Hn in H.
      discriminate. }
  destruct (process_files_named lower decode_utf8_ignore PdfReader
              PDF_SUPPORT secure_filename client first rest Hn)
    as [(Hf & H')|(Hf & H')]; fold handler good in H', Hf;
    rewrite H' in H; [discriminate|].
  apply respond_200 in H as (e & q & s & _ & _ & ->).
  cbn [files_processed extraction_errors].
  destruct (collect_files_summary lower decode_utf8_ignore PdfReader
              PDF_SUPPORT secure_filename (first :: rest)) as (Hp & Hl).
  fold good in Hp. split; [exact Hp|]. split; [|exact Hl].
  rewrite Hp. intros E. apply map_eq_nil in E. contradiction.
Qed.

(** X8: when no completion is available (the client is missing, raises
    or returns no content for every prompt), a request whose first upload
    has a name and in which some upload gave text is still answered with
    success: the placeholder explanation, the single fallback question
    and the status that 0 questions were parsed. *)
Theorem process_files_degraded (first : upload) (rest : list upload) :
  (forall prompt, call_openai_api client prompt = None) ->
  has_name first = true ->
  filter good (first :: rest) <> [] ->
  handler (Some (first :: rest))
  = Http200 (degraded_response (processed (collect (first :: rest)))
               (errors (collect (first :: rest)))).
Proof.
  intros Hc Hn Hg.
  destruct (process_files_named lower decode_utf8_ignore PdfReader
              PDF_SUPPORT secure_filename client first rest Hn)
    as [(Hf & H)|(Hf & H)]; fold handler good collect in H, Hf;
    [contradiction|].
  rewrite H, !Hc. apply respond_without_completions.
Qed.

End HandlerTheorems.

(** X9: whatever is uploaded, the explanation prompt has at most 9589
    characters and the quiz prompt at most 8965: the context of at most
    8054 characters and the fixed text around it. *)
Theorem prompts_bounded (combined_text : str) :
  (len (explanation_prompt (truncate_context combined_text)) <= 9589)%Z
  /\ (len (quiz_prompt (truncate_context combined_text)) <= 8965)%Z.
Proof.
  pose proof (truncate_context_length combined_text) as H.
  unfold explanation_prompt, quiz_prompt. rewrite !len_app.
  assert (He : (len EXPLANATION_PROMPT_HEAD + len EXPLANATION_PROMPT_TAIL
                = 1535)%Z) by (vm_compute; reflexivity).
  assert (Hq : (len QUIZ_PROMPT_HEAD + len QUIZ_PROMPT_TAIL = 911)%Z)
    by (vm_compute; reflexivity).
  lia.
Qed.

(** ** The quiz and the answer of [respond] *)



(** X11: a quiz that is not the fallback consists of the elements of the
    array decoded from the quiz completion that pass the validity filter,
    unchanged and in their order; nothing else is added. *)
Theorem quiz_is_filtered_completion (pf errs : list str)
    (et qt : option str) (r : response) :
  respond pf errs et qt = Http200 r ->
  quiz r <> [FALLBACK_QUESTION] ->
  exists t l,
    nonempty_text qt = Some t
    /\ clean_and_parse_json t true = Return (Some (JArr l))
    /\ quiz r = filter valid_question l.
Proof.
  intros H Hne. apply respond_200 in H as (e & q & s & _ & Hq & ->).
  cbn [quiz] in *.
  apply final_quiz_cases in Hq as [(_ & -> & _)|(_ & Hp & _)];
    [congruence|].
  unfold parse_quiz in Hp.
  destruct (nonempty_text qt) as [t|]; [|discriminate].
  destruct (clean_and_parse_json t true) as [[v|]|x] eqn:Hc;
    cbn [bind] in Hp; try discriminate.
  destruct (truthy v); [|discriminate]. injection Hp as <-.
  pose proof (coercer_shape _ _ Hc) as Hs. cbv [has_shape] in Hs.
  destruct v as [| | | | |l|]; try discriminate.
  exists t, l. auto.
Qed.

(** ** Searching and trimming *)

Lemma lacks_app (c : char) (a b : str) :
  lacks c (a ++ b) = lacks c a && lacks c b.
Proof. apply forallb_app. Qed.

Lemma lacks_rev (c : char) (s : str) : lacks c s = true -> lacks c (rev s) = true.
Proof.
  unfold lacks. rewrite !forallb_forall. intros H x Hx.
  apply H. now apply in_rev.
Qed.

Lemma lacks_lstrip (c : char) (s : str) :
  lacks c s = true -> lacks c (lstrip s) = true.
Proof.
  induction s as [|x r IH]; [auto|]. cbn [lstrip]. intros H.
  destruct (isspace x); [|exact H].
  cbn [lacks forallb] in H. apply andb_prop in H as [_ H]. now apply IH.
Qed.

Lemma lacks_drop_letters (c : char) (s : str) :
  lacks c s = true -> lacks c (drop_letters s) = true.
Proof.
  induction s as [|x r IH]; [auto|]. cbn [drop_letters]. intros H.
  destruct (is_ascii_letter x); [|exact H].
  cbn [lacks forallb] in H. apply andb_prop in H as [_ H]. now apply IH.
Qed.

Lemma lacks_rstrip (c : char) (s : str) :
  lacks c s = true -> lacks c (rstrip s) = true.
Proof.
  intros H. unfold rstrip. now apply lacks_rev, lacks_lstrip, lacks_rev.
Qed.

Lemma lstrip_app (x : char) (p r : str) :
  isspace x = false -> lstrip (p ++ x :: r) = lstrip p ++ x :: r.
Proof.
  intros Hx. induction p as [|y p IH]; cbn [app lstrip].
  - now rewrite Hx.
  - destruct (isspace y); [exact IH | reflexivity].
Qed.

Lemma drop_letters_app (x : char) (p r : str) :
  is_ascii_letter x = false ->
  drop_letters (p ++ x :: r) = drop_letters p ++ x :: r.
Proof.
  intros Hx. induction p as [|y p IH]; cbn [app drop_letters].
  - now rewrite Hx.
  - destruct (is_ascii_letter y); [exact IH | reflexivity].
Qed.

Lemma rstrip_app (x : char) (a q : str) :
  isspace x = false -> rstrip (a ++ x :: q) = a ++ x :: rstrip q.
Proof.
  intros Hx. unfold rstrip.
  rewrite rev_app_distr. cbn [rev]. rewrite <- app_assoc. cbn [app].
  rewrite lstrip_app by exact Hx.
  rewrite rev_app_distr. cbn [rev]. rewrite rev_involutive.
  now rewrite <- app_assoc.
Qed.

(** [find] gives the position of a character that does not occur
    before, [rfind] that of one that does not occur after. *)
Lemma find_first (c : char) (a b : str) :
  lacks c a = true -> find (a ++ c :: b) c = len a.
Proof.
  induction a as [|x a IH]; cbn [app find]; intros H.
  - now rewrite N.eqb_refl.
  - cbn [lacks forallb] in H. apply andb_prop in H as [Hx Ha].
    apply negb_true_iff in Hx. rewrite Hx, (IH Ha).
    pose proof (len_nonneg a) as Hn.
    replace (len a <? 0)%Z with false by (symmetry; apply Z.ltb_ge; lia).
    unfold len. cbn [List.length]. lia.
Qed.

Lemma rfind_absent (c : char) (b : str) :
  lacks c b = true -> rfind b c = (-1)%Z.
Proof.
  induction b as [|x b IH]; [reflexivity|]. cbn [rfind]. intros H.
  cbn [lacks forallb] in H. apply andb_prop in H as [Hx Hb].
  apply negb_true_iff in Hx. now rewrite (IH Hb), Hx.
Qed.

Lemma rfind_final (c : char) (a b : str) :
  lacks c b = true -> rfind (a ++ c :: b) c = len a.
Proof.
  intros H. induction a as [|x a IH]; cbn [app rfind].
  - now rewrite (rfind_absent _ _ H), N.eqb_refl.
  - rewrite IH. pose proof (len_nonneg a) as Hn.
    replace (0 <=? len a)%Z with true by (symmetry; apply Z.leb_le; lia).
    unfold len. cbn [List.length]. lia.
Qed.

Lemma slice_middle (a body b : str) :
  slice (a ++ body ++ b) (len a) (len a + len body) = body.
Proof.
  unfold slice, len. rewrite Nat2Z.id.
  rewrite skipn_app, skipn_all, Nat.sub_diag. cbn [skipn app].
  replace (Z.to_nat (Z.of_nat (List.length a) + Z.of_nat (List.length body)
                     - Z.of_nat (List.length a)))
    with (List.length body) by lia.
  rewrite firstn_app, firstn_all, Nat.sub_diag. cbn [firstn].
  apply app_nil_r.
Qed.

(** A text that starts with the fence has it before any character that
    is no backtick. *)
Lemma startswith_fence_app (x : char) (p r : str) :
  (x =? BACKTICK)%N = false ->
  startswith (p ++ x :: r) FENCE = true ->
  exists p', p = FENCE ++ p'.
Proof.
  intros Hx H. unfold FENCE in *.
  assert (Hb : (BACKTICK =? x)%N = false) by now rewrite N.eqb_sym.
  destruct p as [|a p]; cbn [app startswith] in H;
    [rewrite Hb in H; discriminate|].
  apply andb_prop in H as [Ha H]. apply N.eqb_eq in Ha. subst a.
  destruct p as [|a p]; cbn [app startswith] in H;
    [rewrite Hb in H; discriminate|].
  apply andb_prop in H as [Ha H]. apply N.eqb_eq in Ha. subst a.
  destruct p as [|a p]; cbn [app startswith] in H;
    [rewrite Hb in H; discriminate|].
  apply andb_prop in H as [Ha H]. apply N.eqb_eq in Ha. subst a.
  exists p. reflexivity.
Qed.

(** ** The coercer isolates the bracketed part *)

Section Framing.

Variable is_list : bool.
Variable m : str.

Let o := start_char is_list.
Let cl := end_char is_list.

Lemma bracket_facts :
  isspace o = false /\ isspace cl = false
  /\ (o =? BACKTICK)%N = false /\ (cl =? BACKTICK)%N = false
  /\ is_ascii_letter o = false.
Proof. subst o cl. destruct is_list; repeat split. Qed.

Lemma framed_strip (t : str) : framed o cl m t -> framed o cl m (strip t).
Proof.
  destruct bracket_facts as (Ho & Hcl & _).
  intros (p & q & -> & Hp & Hq). unfold strip.
  rewrite lstrip_app by exact Ho.
  replace (lstrip p ++ o :: m ++ cl :: q)
    with ((lstrip p ++ o :: m) ++ cl :: q)
    by (rewrite <- app_assoc; reflexivity).
  rewrite rstrip_app by exact Hcl.
  exists (lstrip p), (rstrip q). split.
  - now rewrite <- app_assoc.
  - split; [now apply lacks_lstrip | now apply lacks_rstrip].
Qed.

Lemma framed_open_fence (t : str) :
  framed o cl m t -> startswith t FENCE = true ->
  framed o cl m (strip_open_fence t).
Proof.
  destruct bracket_facts as (Ho & _ & Hb & _ & Hl).
  intros (p & q & -> & Hp & Hq) Hs.
  apply startswith_fence_app in Hs as [p' ->]; [|exact Hb].
  unfold strip_open_fence.
  change (skipn 3 ((FENCE ++ p') ++ o :: m ++ cl :: q))
    with (p' ++ o :: m ++ cl :: q).
  rewrite drop_letters_app by exact Hl.
  rewrite lstrip_app by exact Ho.
  exists (lstrip (drop_letters p')), q. split; [reflexivity|].
  split; [|exact Hq].
  apply lacks_lstrip, lacks_drop_letters.
  rewrite lacks_app in Hp. now apply andb_prop in Hp as [_ Hp].
Qed.

Lemma framed_close_fence (t : str) :
  framed o cl m t -> endswith t FENCE = true ->
  framed o cl m (slice t 0 (len t - 3)).
Proof.
  destruct bracket_facts as (_ & _ & _ & Hb & _).
  intros (p & q & -> & Hp & Hq) He. unfold endswith in He.
  replace (p ++ o :: m ++ cl :: q) with ((p ++ o :: m) ++ cl :: q) in *
    by (rewrite <- app_assoc; reflexivity).
  rewrite rev_app_distr in He. cbn [rev] in He.
  rewrite <- app_assoc in He. cbn [app] in He.
  change (rev FENCE) with FENCE in He.
  apply startswith_fence_app in He as [q' Hq']; [|exact Hb].
  assert (Eq : q = rev q' ++ FENCE).
  { rewrite <- (rev_involutive q), Hq', rev_app_distr. reflexivity. }
  subst q. clear Hq'.
  exists p, (rev q'). split.
  - unfold slice. rewrite Z.sub_0_r. cbn [Z.to_nat skipn].
    replace ((p ++ o :: m) ++ cl :: rev q' ++ FENCE)
      with (((p ++ o :: m) ++ cl :: rev q') ++ FENCE)
      by (rewrite <- !app_assoc; reflexivity).
    replace (Z.to_nat (len (((p ++ o :: m) ++ cl :: rev q') ++ FENCE) - 3))
      with (List.length ((p ++ o :: m) ++ cl :: rev q')).
    + rewrite firstn_app, firstn_all, Nat.sub_diag. cbn [firstn].
      rewrite app_nil_r, <- app_assoc. reflexivity.
    + unfold len. rewrite (length_app _ FENCE).
      change (List.length FENCE) with 3%nat. lia.
  - split; [exact Hp|].
    rewrite lacks_app in Hq. now apply andb_prop in Hq as [Hq _].
Qed.

Lemma framed_strip_fences (t : str) :
  framed o cl m t -> framed o cl m (strip_fences t).
Proof.
  intros H. unfold strip_fences.
  assert (H1 : framed o cl m
                 (if startswith t FENCE then strip_open_fence t else t)).
  { destruct (startswith t FENCE) eqn:E; [|exact H].
    now apply framed_open_fence. }
  set (t1 := if startswith t FENCE then strip_open_fence t else t) in *.
  apply framed_strip.
  destruct (endswith t1 FENCE) eqn:E; [|exact H1].
  now apply framed_close_fence.
Qed.

(** Steps 1 to 3 on a framed text give the cleaned bracketed part. *)
Lemma json_content_framed (text : str) :
  framed o cl m text ->
  json_content text is_list = Some (clean_content (o :: m ++ [cl])).
Proof.
  intros H. unfold json_content.
  destruct text as [|c0 t0].
  { destruct H as (p & q & E & _). destruct p; discriminate. }
  cbv zeta.
  apply framed_strip, framed_strip_fences in H.
  destruct H as (p & q & E & Hp & Hq). rewrite E. clear E.
  fold o. change (if is_list then CLOSE_BRACKET else CLOSE_BRACE) with cl.
  rewrite (find_first _ _ _ Hp).
  replace (p ++ o :: m ++ cl :: q) with ((p ++ o :: m) ++ cl :: q)
    by (rewrite <- app_assoc; reflexivity).
  rewrite (rfind_final _ _ _ Hq).
  pose proof (len_nonneg p) as Hn.
  assert (Hl : len (p ++ o :: m) = (len p + len (o :: m))%Z)
    by apply len_app.
  assert (Hm : (0 < len (o :: m))%Z)
    by (unfold len; cbn [List.length]; lia).
  replace ((len p =? -1) || (len (p ++ o :: m) =? -1)
           || (len (p ++ o :: m) <? len p))%Z with false.
  2:{ symmetry. apply orb_false_intro; [apply orb_false_intro|].
      - apply Z.eqb_neq. lia.
      - apply Z.eqb_neq. lia.
      - apply Z.ltb_ge. lia. }
  do 2 f_equal.
  replace ((p ++ o :: m) ++ cl :: q) with (p ++ (o :: m ++ [cl]) ++ q)
    by (cbn [app]; rewrite <- !app_assoc; reflexivity).
  replace (len (p ++ o :: m) + 1)%Z with (len p + len (o :: m ++ [cl]))%Z.
  - apply slice_middle.
  - rewrite Hl. unfold len. cbn [List.length]. rewrite length_app.
    cbn [List.length]. lia.
Qed.

End Framing.

Lemma framed_body (is_list : bool) (m : str) :
  framed (start_char is_list) (end_char is_list) m
    (start_char is_list :: m ++ [end_char is_list]).
Proof. exists [], []. repeat split. Qed.

(** X12: what stands before the first expected opening bracket and after
    the last matching closing bracket has no influence on the result:
    prose, whitespace and markdown fences around the bracketed part are
    discarded. *)
Theorem coercer_ignores_surroundings (is_list : bool) (p m q : str) :
  lacks (start_char is_list) p = true ->
  lacks (end_char is_list) q = true ->
  clean_and_parse_json
    (p ++ start_char is_list :: m ++ end_char is_list :: q) is_list
  = clean_and_parse_json
      (start_char is_list :: m ++ [end_char is_list]) is_list.
Proof.
  intros Hp Hq. rewrite !clean_and_parse_json_steps.
  assert (H1 : framed (start_char is_list) (end_char is_list) m
                 (p ++ start_char is_list :: m ++ end_char is_list :: q))
    by (exists p, q; auto).
  rewrite (@json_content_framed is_list m _ H1).
  rewrite (@json_content_framed is_list m _ (framed_body is_list m)).
  reflexivity.
Qed.


(** ** File names *)

Lemma find_present (c : char) (a b : str) : (0 <= find (a ++ c :: b) c)%Z.
Proof.
  induction a as [|x a IH]; cbn [app find].
  - rewrite N.eqb_refl. lia.
  - destruct (x =? c)%N; [lia|].
    destruct (find (a ++ c :: b) c <? 0)%Z eqn:E; [|lia].
    apply Z.ltb_lt in E. lia.
Qed.

Lemma find_absent (c : char) (s : str) :
  lacks c s = true -> find s c = (-1)%Z.
Proof.
  induction s as [|x s IH]; [reflexivity|]. cbn [find]. intros H.
  cbn [lacks forallb] in H. apply andb_prop in H as [Hx Hs].
  apply negb_true_iff in Hx. now rewrite Hx, (IH Hs).
Qed.

(** X14: only the text after the last dot of a file name decides whether
    the file is allowed: for every stem, also an empty one or one with
    further dots, the name is allowed exactly when that text, in lower
    case, is [pdf] or [txt]. *)
Theorem allowed_file_last_extension (lower : str -> str) (stem ext : str) :
  lacks DOT ext = true ->
  allowed_file lower (stem ++ DOT :: ext) = is_supported (lower ext).
Proof.
  intros H. unfold allowed_file, rsplit_ext.
  pose proof (find_present DOT stem ext) as Hf. apply Z.leb_le in Hf.
  rewrite Hf, (rfind_final _ stem _ H). cbn [andb].
  pose proof (len_nonneg stem) as Hn.
  replace (len stem <? 0)%Z with false by (symmetry; apply Z.ltb_ge; lia).
  replace (Z.to_nat (len stem + 1)) with (List.length (stem ++ [DOT])).
  - replace (stem ++ DOT :: ext) with ((stem ++ [DOT]) ++ ext)
      by (rewrite <- app_assoc; reflexivity).
    rewrite skipn_app, skipn_all, Nat.sub_diag. reflexivity.
  - unfold len. rewrite length_app. cbn [List.length]. lia.
Qed.

Lemma allowed_file_last_extension_witness :
  lacks DOT (py "PDF") = true
  /\ allowed_file ascii_lower (py "my.notes.v2" ++ DOT :: py "PDF")
     = is_supported (ascii_lower (py "PDF")).
Proof.
  split; [reflexivity|].
  apply (allowed_file_last_extension ascii_lower (py "my.notes.v2")
           (py "PDF")).
  reflexivity.
Defined.

(** X15: a file name without a dot is not allowed, and the extractor
    raises on it (the index error of [rsplit(...)[1]]) instead of
    returning a diagnostic: it relies on its caller to check
    [allowed_file] first. *)
Theorem name_without_dot (lower : str -> str) (decode : bytes -> exc str)
    (reader : bytes -> exc (list (exc str))) (support : bool) (file : upload) :
  lacks DOT (filename file) = true ->
  allowed_file lower (filename file) = false
  /\ extract_text_from_file lower decode reader support file
     = Raise (OtherError (py "list index out of range")).
Proof.
  intros H. unfold allowed_file, extract_text_from_file, rsplit_ext.
  rewrite (find_absent _ _ H), (rfind_absent _ _ H). split; reflexivity.
Qed.

Lemma name_without_dot_witness :
  lacks DOT (filename (named (py "README"))) = true
  /\ allowed_file same_name (filename (named (py "README"))) = false.
Proof.
  split; [reflexivity|].
  apply (name_without_dot same_name sample_decode sample_reader true
           (named (py "README"))).
  reflexivity.
Defined.

(** ** The repair pass *)

(** X16: the repair pass deletes nothing but commas and whitespace: all
    other characters of the text, brackets included, are kept in their
    order, and the text does not get longer. *)
Theorem repair_deletes_commas_and_whitespace (dropping : bool) (s : str) :
  filter kept_by_repair (remove_trailing_commas dropping s)
  = filter kept_by_repair s
  /\ (List.length (remove_trailing_commas dropping s) <= List.length s)%nat.
Proof.
  revert dropping. induction s as [|c r IH]; intros dropping.
  - split; [reflexivity | cbn; lia].
  - cbn [remove_trailing_commas].
    destruct (dropping && isspace c) eqn:E1.
    + apply andb_prop in E1 as [_ Hs].
      destruct (IH true) as [Hf Hl]. cbn [filter List.length].
      unfold kept_by_repair at 2. rewrite Hs, orb_true_r. cbn [negb].
      split; [exact Hf | lia].
    + destruct ((c =? COMMA)%N && closer_follows r) eqn:E2.
      * apply andb_prop in E2 as [Hc _].
        destruct (IH true) as [Hf Hl]. cbn [filter List.length].
        unfold kept_by_repair at 2. rewrite Hc. cbn [orb negb].
        split; [exact Hf | lia].
      * destruct (IH false) as [Hf Hl]. cbn [filter List.length].
        rewrite Hf. split; [reflexivity | lia].
Qed.

(** ** The blocks of the fallback explanation *)

Lemma startswith_skipn (p s : str) :
  startswith s p = true -> s = p ++ skipn (List.length p) s.
Proof.
  revert s. induction p as [|a p IH]; intros s H; [reflexivity|].
  destruct s as [|b s]; [discriminate|]. cbn [startswith] in H.
  apply andb_prop in H as [Hab H]. apply N.eqb_eq in Hab. subst b.
  cbn [List.length skipn app]. f_equal. now apply IH.
Qed.

Lemma join_cons (sep x : str) (l : list str) :
  l <> [] -> join sep (x :: l) = x ++ sep ++ join sep l.
Proof. destruct l; [congruence | reflexivity]. Qed.

(** Joining the pieces of a split gives the text back. *)
Lemma split_aux_join (sep : str) (s : str) :
  sep <> [] ->
  forall k cur, join sep (split_aux sep k cur s) = rev cur ++ skipn k s.
Proof.
  intros Hsep. induction s as [|c r IH]; intros k cur.
  - cbn [split_aux join]. now rewrite skipn_nil, app_nil_r.
  - cbn [split_aux]. destruct k as [|k].
    + cbn [skipn]. destruct (startswith (c :: r) sep) eqn:E.
      * rewrite join_cons.
        2:{ pose proof (split_aux_nonempty sep r (List.length sep - 1) []).
            destruct (split_aux sep (List.length sep - 1) [] r);
              [cbn in *; lia | discriminate]. }
        rewrite IH. cbn [rev app]. f_equal.
        apply startswith_skipn in E.
        etransitivity; [|symmetry; exact E].
        destruct sep as [|a sep']; [congruence|].
        cbn [List.length skipn].
        replace (S (List.length sep') - 1)%nat with (List.length sep') by lia.
        reflexivity.
      * rewrite IH. cbn [rev skipn]. now rewrite <- app_assoc.
    + rewrite IH. reflexivity.
Qed.

(** X17: when the raw completion has at most five blocks, the fallback
    explanation loses none of it: its content, joined by blank lines, is
    the completion text. *)
Theorem fallback_keeps_short_completion (explanation_text : option str)
    (t : str) :
  nonempty_text explanation_text = Some t ->
  (List.length (split t BLANK_LINE) <= 5)%nat ->
  join BLANK_LINE (fallback_content explanation_text) = t.
Proof.
  intros Ht Hl. unfold fallback_content. rewrite Ht.
  change [10%N; 10%N] with BLANK_LINE.
  rewrite firstn_all2 by exact Hl.
  unfold split. now rewrite split_aux_join.
Qed.

Lemma fallback_keeps_short_completion_witness :
  nonempty_text (Some (py "one" ++ BLANK_LINE ++ py "two")) 
  = Some (py "one" ++ BLANK_LINE ++ py "two")
  /\ join BLANK_LINE
       (fallback_content (Some (py "one" ++ BLANK_LINE ++ py "two")))
     = py "one" ++ BLANK_LINE ++ py "two".
Proof.
  split; [reflexivity|].
  apply (fallback_keeps_short_completion
           (Some (py "one" ++ BLANK_LINE ++ py "two"))).
  - reflexivity.
  - vm_compute. lia.
Defined.

End Decoder.

(* ------------------------------------------------------------------ *)
(** * Examples

    The theorems above hold for every recursion limit; the examples are
    stated at [SAMPLE_LIMIT]. *)


(** C4, as stated, fails: for the completion [hello] the coercer returns
    [None] and the fallback content has one entry, not five. *)
Lemma fallback_content_single_block :
  parse_explanation SAMPLE_LIMIT (Some (py "hello")) = Return None
  /\ nonempty_text (Some (py "hello")) = Some (py "hello")
  /\ fallback_content (Some (py "hello")) = [py "hello"].
Proof. vm_compute. split; [reflexivity | split; reflexivity]. Qed.

Lemma explanation_fallback_content_witness :
  parse_explanation SAMPLE_LIMIT (Some (py "hello")) = Return None
  /\ (1 <= List.length (fallback_content (Some (py "hello"))) <= 5)%nat.
Proof.
  split; [vm_compute; reflexivity|].
  apply (explanation_fallback_content SAMPLE_LIMIT (Some (py "hello"))).
  vm_compute; reflexivity.
Defined.

Lemma respond_five_questions :
  respond SAMPLE_LIMIT [] [] None (Some five_questions) = Http200 five_response.
Proof. vm_compute. reflexivity. Qed.


(** C8, as stated, fails: five questions with five numeric options each
    and the answer [Z] pass the filter and are returned as they are. *)
Lemma quiz_question_shape_violated :
  respond SAMPLE_LIMIT [] [] None (Some five_questions) = Http200 five_response
  /\ quiz five_response <> [FALLBACK_QUESTION]
  /\ In loose_question (quiz five_response)
  /\ spec_quiz_question loose_question = false.
Proof.
  split; [exact respond_five_questions|].
  split; [vm_compute; discriminate|].
  split; [left; reflexivity | vm_compute; reflexivity].
Qed.

Lemma quiz_questions_valid_witness :
  exists d l,
    loose_question = JObj d
    /\ truthy_get d "question" = true
    /\ truthy_get d "correctAnswer" = true
    /\ dict_get d (py "options") = Some (JArr l)
    /\ (4 <= len l)%Z.
Proof.
  apply (quiz_questions_valid SAMPLE_LIMIT [] [] None (Some five_questions)
           (r := five_response)).
  - exact respond_five_questions.
  - vm_compute; discriminate.
  - left; reflexivity.
Defined.

Lemma coercer_list_result_witness :
  exists l, JArr [JInt 1; JInt 2] = JArr l
            /\ unwrap_quiz (JArr [JInt 1; JInt 2]) = l.
Proof.
  apply (coercer_list_result SAMPLE_LIMIT (py "Here: [1, 2] done")).
  vm_compute. reflexivity.
Defined.

(** C1, as stated, fails: the completion [{}] is decoded to an empty
    object, which is returned as the explanation without topic or
    content; no fallback is substituted. *)
Lemma explanation_shape_not_checked :
  exists r,
    respond SAMPLE_LIMIT [] [] (Some (py "{}")) None = Http200 r
    /\ explanation r = JArr [JObj []]
    /\ spec_explanation_result (JObj []) = false.
Proof.
  eexists. split; [vm_compute; reflexivity|]. split; reflexivity.
Qed.

Lemma explanation_one_element_witness :
  exists d,
    explanation five_response = JArr [JObj d]
    /\ (parse_explanation SAMPLE_LIMIT None = Return (Some (JObj d))
        \/ parse_explanation SAMPLE_LIMIT None = Return None
           /\ d = [(py "topic", JStr FAILED_TOPIC);
                   (py "content",
                    JArr (List.map JStr (fallback_content None)))]).
Proof.
  apply (explanation_one_element SAMPLE_LIMIT [] [] None (Some five_questions)).
  exact respond_five_questions.
Defined.

(** C7 on the code: an exception escapes.  The integer conversion inside
    [json.loads] raises [ValueError] for a literal of 4301 digits; it is
    no [JSONDecodeError], so neither handler of the coercer catches it
    (the handlers of [call_openai_api] and [extract_text_from_file] catch
    every [Exception]).  This is so for every recursion limit that lets
    the decoder open the array. *)
Lemma coercer_raises_value_error (limit : nat) :
  clean_and_parse_json (S limit) long_integer true = Raise ValueError.
Proof. vm_compute. reflexivity. Qed.


Lemma coercer_outcome_witness :
  fails_early (py "no brackets here") false = true
  /\ clean_and_parse_json SAMPLE_LIMIT (py "no brackets here") false = Return None.
Proof.
  split; [vm_compute; reflexivity|].
  apply (coercer_outcome SAMPLE_LIMIT (py "no brackets here") false).
  vm_compute; reflexivity.
Defined.

(** C2 on the code: an object with a single trailing comma before its
    closing brace is not recovered.  [json.loads] reports the comma as a
    missing property name, which is not one of the two messages the
    repair pass is run for; the repair pass itself would have produced a
    text that decodes to the object.  This is so for every recursion
    limit that lets the decoder open the object. *)
Theorem trailing_comma_not_repaired (limit : nat) :
  json_loads (S limit) (dq "{'a': 1,}")
  = Raise (JSONDecodeError ExpectingPropertyName)
  /\ repairable ExpectingPropertyName = false
  /\ clean_and_parse_json (S limit) (dq "{'a': 1,}") false = Return None
  /\ json_loads (S limit) (remove_trailing_commas false (dq "{'a': 1,}"))
     = Return (JObj [(py "a", JInt 1)]).
Proof. vm_compute. repeat (split; try reflexivity). Qed.


Lemma process_sample_uploads :
  process_files SAMPLE_LIMIT same_name sample_decode sample_reader true
    same_name None
    (Some sample_uploads)
  = Http200 (degraded_response [py "notes.txt"] [photo_error]).
Proof. vm_compute. reflexivity. Qed.

Lemma process_files_400_iff_witness :
  has_name notes_txt = true
  /\ ((exists msg,
         process_files SAMPLE_LIMIT same_name sample_decode sample_reader true
           same_name
           None (Some (notes_txt :: tl sample_uploads)) = Http400 msg)
      <-> filter (gives_text same_name sample_decode sample_reader true)
            (notes_txt :: tl sample_uploads) = []).
Proof.
  split; [reflexivity|].
  apply (process_files_400_iff SAMPLE_LIMIT same_name sample_decode sample_reader
           true
           same_name None notes_txt (tl sample_uploads)).
  reflexivity.
Defined.

Lemma process_files_success_witness :
  process_files SAMPLE_LIMIT same_name sample_decode sample_reader true
    same_name None
    (Some sample_uploads)
  = Http200 (degraded_response [py "notes.txt"] [photo_error])
  /\ files_processed (degraded_response [py "notes.txt"] [photo_error]) <> [].
Proof.
  split; [exact process_sample_uploads|].
  apply (process_files_success SAMPLE_LIMIT same_name sample_decode sample_reader
           true
           same_name None sample_uploads).
  exact process_sample_uploads.
Defined.

Lemma process_files_degraded_witness :
  (forall prompt, call_openai_api None prompt = None)
  /\ has_name notes_txt = true
  /\ filter (gives_text same_name sample_decode sample_reader true)
       sample_uploads <> []
  /\ process_files SAMPLE_LIMIT same_name sample_decode sample_reader true
    same_name None
       (Some sample_uploads)
     = Http200
         (degraded_response
            (processed (collect_files same_name sample_decode sample_reader
                          true same_name sample_uploads))
            (errors (collect_files same_name sample_decode sample_reader
                       true same_name sample_uploads))).
Proof.
  split; [reflexivity|]. split; [reflexivity|].
  split; [vm_compute; discriminate|].
  apply (process_files_degraded SAMPLE_LIMIT same_name sample_decode sample_reader
           true
           same_name None notes_txt (tl sample_uploads)).
  - reflexivity.
  - reflexivity.
  - vm_compute; discriminate.
Defined.


Lemma quiz_is_filtered_completion_witness :
  exists t l,
    nonempty_text (Some five_questions) = Some t
    /\ clean_and_parse_json SAMPLE_LIMIT t true = Return (Some (JArr l))
    /\ quiz five_response = filter valid_question l.
Proof.
  apply (quiz_is_filtered_completion SAMPLE_LIMIT [] [] None (Some five_questions)
           (r := five_response)).
  - exact respond_five_questions.
  - vm_compute; discriminate.
Defined.

Lemma coercer_ignores_surroundings_witness :
  lacks (start_char false) chatty_prefix = true
  /\ lacks (end_char false) chatty_suffix = true
  /\ clean_and_parse_json SAMPLE_LIMIT
       (chatty_prefix ++ start_char false :: chatty_middle
        ++ end_char false :: chatty_suffix) false
     = clean_and_parse_json SAMPLE_LIMIT
         (start_char false :: chatty_middle ++ [end_char false]) false.
Proof.
  split; [reflexivity|]. split; [reflexivity|].
  apply (coercer_ignores_surroundings SAMPLE_LIMIT false chatty_prefix chatty_middle
           chatty_suffix); reflexivity.
Defined.

